(** * Food Court Manager front end: auth schema, fetch wrapper, login form

    A shallow embedding of
    - [src/types/auth.schema.ts]  (the zod schema [LoginBody]),
    - [src/utils/api.ts]          ([apiRequest], [api], [createApiClient]),
    - the login form component    ([onSubmit], the error banner),
    followed by the properties the specification states about them.

    The code runs on a JavaScript host.  What the host decides (the answer of
    [fetch], the build-time environment, the printing of doubles, the e-mail
    pattern of the validation library) is gathered in the record [Host]; every
    operation takes the host as its first argument and every theorem holds
    for all hosts.  Effects are recorded in a trace of [event]s. *)

From Stdlib Require Import String Ascii List ZArith Lia Bool.
From Stdlib Require Import DecimalString PrimFloat FloatOps SpecFloat.
Import ListNotations.

#[local] Set Warnings "-register-all".

Open Scope string_scope.
Open Scope list_scope.

Infix "+++" := String.append (right associativity, at level 60).

(** ** JavaScript values *)

(** The values the program handles: what [JSON.parse] produces, [undefined],
    and BigInt (a [body: unknown] that [JSON.stringify] refuses).  A number is
    an IEEE double; an object is the list of its own enumerable properties in
    the order they are enumerated.  Reading a key takes its first entry (an
    object has one entry per key). *)
Inductive value : Type :=
| VUndefined
| VNull
| VBoolean (b : bool)
| VNumber (n : float)
| VBigInt (z : Z)
| VString (s : string)
| VArray (elements : list value)
| VObject (properties : list (string * value)).

(** What a [throw] carries: an instance of [Error] with its message, or any
    other value. *)
Inductive thrown : Type :=
| ErrorObject (message : string)
| NonError (v : value).

(** [error instanceof Error] *)
Definition instanceof_Error (t : thrown) : bool :=
  match t with
  | ErrorObject _ => true
  | NonError _ => false
  end.

(** A computation that returns or throws. *)
Definition result (A : Type) : Type := (thrown + A)%type.

(** Own property lookup, [o[key]] on the property list. *)
Fixpoint lookup {A : Type} (key : string) (o : list (string * A)) : option A :=
  match o with
  | [] => None
  | (k, v) :: rest => if String.eqb k key then Some v else lookup key rest
  end.

Definition keys {A : Type} (o : list (string * A)) : list string := map fst o.

(** [o[key] = v]: an existing key keeps its place, a new one goes last (the
    engine would enumerate a new integer-like key before the string keys; the
    order of such keys plays no role below). *)
Fixpoint set_property {A : Type} (key : string) (v : A) (o : list (string * A))
  : list (string * A) :=
  match o with
  | [] => [(key, v)]
  | (k, w) :: rest =>
      if String.eqb k key then (k, v) :: rest else (k, w) :: set_property key v rest
  end.

(** [{ ...target, ...source }]: the properties of [source] are copied over
    [target] in order. *)
Definition spread {A : Type} (target source : list (string * A)) : list (string * A) :=
  fold_left (fun acc kv => set_property (fst kv) (snd kv) acc) source target.

(** ToBoolean: [undefined], [null], [false], [+0], [-0], [NaN], [0n] and the
    empty string are falsy. *)
Definition ToBoolean (v : value) : bool :=
  match v with
  | VUndefined | VNull => false
  | VBoolean b => b
  | VNumber n => negb (PrimFloat.eqb n 0%float || PrimFloat.is_nan n)
  | VBigInt z => negb (Z.eqb z 0)
  | VString s => negb (String.eqb s EmptyString)
  | VArray _ | VObject _ => true
  end.

(** [a || b] *)
Definition or_else (a b : value) : value := if ToBoolean a then a else b.

(** Decimal digits of an integer (BigInt::toString, and Number::toString on
    an HTTP status). *)
Definition Z_toString (z : Z) : string := NilZero.string_of_int (Z.to_int z).

(** [s.includes(sub)] *)
Fixpoint includes (s sub : string) : bool :=
  String.prefix sub s ||
  match s with
  | EmptyString => false
  | String _ rest => includes rest sub
  end.

(** Messages of the TypeErrors the engine raises (V8's wording; no property
    below depends on the text). *)
Definition msg_read_of_null : string :=
  "Cannot read properties of null (reading 'message')".
Definition msg_read_of_undefined : string :=
  "Cannot read properties of undefined (reading 'message')".
Definition msg_to_primitive : string :=
  "Cannot convert object to primitive value".
Definition msg_serialize_bigint : string :=
  "Do not know how to serialize a BigInt".

(** [v.message]: a TypeError on [null] and [undefined]; the own property of an
    object; [undefined] on everything else (no built-in prototype has a
    [message]). *)
Definition get_message (v : value) : result value :=
  match v with
  | VUndefined => inl (ErrorObject msg_read_of_undefined)
  | VNull => inl (ErrorObject msg_read_of_null)
  | VObject props =>
      match lookup "message" props with
      | Some m => inr m
      | None => inr VUndefined
      end
  | _ => inr VUndefined
  end.

Section Conversions.

(** Number::toString, the shortest decimal that reads back as the double. *)
Variable Number_toString : float -> string.

(** ToString.  An array is joined with commas, [null] and [undefined]
    elements giving the empty string.  An object without own [toString]
    prints through [Object.prototype.toString]; an own [toString] is data
    here, hence not callable, and [valueOf] (own: not callable; inherited:
    returns the object) gives no primitive either: TypeError. *)
Fixpoint ToString (v : value) : result string :=
  match v with
  | VUndefined => inr "undefined"
  | VNull => inr "null"
  | VBoolean b => inr (if b then "true" else "false")
  | VNumber n => inr (Number_toString n)
  | VBigInt z => inr (Z_toString z)
  | VString s => inr s
  | VArray elements =>
      (fix join (l : list value) : result string :=
         match l with
         | [] => inr EmptyString
         | x :: rest =>
             match (match x with
                    | VUndefined | VNull => inr EmptyString
                    | _ => ToString x
                    end) with
             | inl e => inl e
             | inr sx =>
                 match rest with
                 | [] => inr sx
                 | _ :: _ =>
                     match join rest with
                     | inl e => inl e
                     | inr srest => inr (sx +++ "," +++ srest)
                     end
                 end
             end
         end) elements
  | VObject props =>
      match lookup "toString" props with
      | Some _ => inl (ErrorObject msg_to_primitive)
      | None => inr "[object Object]"
      end
  end.

(** [new Error(message)].message: the inherited empty message when the
    argument is [undefined], its ToString otherwise. *)
Definition new_Error_message (message : value) : result string :=
  match message with
  | VUndefined => inr EmptyString
  | _ => ToString message
  end.

(** QuoteJSONString on 8-bit code units. *)
Definition hex_digit (n : nat) : ascii :=
  nth n ["0"; "1"; "2"; "3"; "4"; "5"; "6"; "7"; "8"; "9";
         "a"; "b"; "c"; "d"; "e"; "f"]%char "0"%char.

Definition double_quote : ascii := ascii_of_nat 34.
Definition backslash : ascii := ascii_of_nat 92.

Definition escape_code_unit (c : ascii) : string :=
  let n := nat_of_ascii c in
  if Nat.eqb n 8 then String backslash "b"
  else if Nat.eqb n 9 then String backslash "t"
  else if Nat.eqb n 10 then String backslash "n"
  else if Nat.eqb n 12 then String backslash "f"
  else if Nat.eqb n 13 then String backslash "r"
  else if Nat.eqb n 34 then String backslash (String double_quote EmptyString)
  else if Nat.eqb n 92 then String backslash (String backslash EmptyString)
  else if Nat.ltb n 32 then
    String backslash
      ("u00" +++ String (hex_digit (n / 16)) (String (hex_digit (n mod 16)) EmptyString))
  else String c EmptyString.

Fixpoint escape_string (s : string) : string :=
  match s with
  | EmptyString => EmptyString
  | String c rest => escape_code_unit c +++ escape_string rest
  end.

Definition QuoteJSONString (s : string) : string :=
  String double_quote (escape_string s +++ String double_quote EmptyString).

(** SerializeJSONProperty of [JSON.stringify]: [None] is [undefined] (the
    property is left out of an object and printed [null] in an array), a
    non-finite number prints [null], a BigInt throws. *)
Fixpoint SerializeJSONProperty (v : value) : result (option string) :=
  match v with
  | VUndefined => inr None
  | VNull => inr (Some "null")
  | VBoolean b => inr (Some (if b then "true" else "false"))
  | VNumber n => inr (Some (if PrimFloat.is_finite n then Number_toString n else "null"))
  | VBigInt _ => inl (ErrorObject msg_serialize_bigint)
  | VString s => inr (Some (QuoteJSONString s))
  | VArray elements =>
      match (fix items (l : list value) : result (list string) :=
               match l with
               | [] => inr []
               | x :: rest =>
                   match SerializeJSONProperty x with
                   | inl e => inl e
                   | inr o =>
                       match items rest with
                       | inl e => inl e
                       | inr ss =>
                           inr (match o with Some s => s | None => "null" end :: ss)
                       end
                   end
               end) elements with
      | inl e => inl e
      | inr ss => inr (Some ("[" +++ String.concat "," ss +++ "]"))
      end
  | VObject props =>
      match (fix members (l : list (string * value)) : result (list string) :=
               match l with
               | [] => inr []
               | (k, x) :: rest =>
                   match SerializeJSONProperty x with
                   | inl e => inl e
                   | inr o =>
                       match members rest with
                       | inl e => inl e
                       | inr ss =>
                           inr (match o with
                                | Some s => (QuoteJSONString k +++ ":" +++ s) :: ss
                                | None => ss
                                end)
                       end
                   end
               end) props with
      | inl e => inl e
      | inr ss => inr (Some ("{" +++ String.concat "," ss +++ "}"))
      end
  end.

(** [JSON.stringify(v)] *)
Definition JSON_stringify (v : value) : result (option string) :=
  SerializeJSONProperty v.

End Conversions.


(** ** Requests, responses and the host *)

(** [HttpMethod] of api.ts. *)
Inductive HttpMethod : Type := GET | POST | PUT | DELETE | PATCH.

(** The platform's [RequestCache] and [RequestCredentials]. *)
Inductive RequestCache : Type :=
| CacheDefault | ForceCache | NoCache | NoStore | OnlyIfCached | Reload.

Inductive RequestCredentials : Type := Include | Omit | SameOrigin.

(** The platform's [HeadersInit]: a plain record, an array of pairs, or a
    [Headers] instance. *)
Inductive HeadersInit : Type :=
| HeadersRecord (fields : list (string * string))
| HeadersPairs (pairs : list (string * string))
| HeadersInstance (entries : list (string * string)).

(** The own enumerable properties of an array: its indices. *)
Fixpoint indexed (i : nat) (l : list value) : list (string * value) :=
  match l with
  | [] => []
  | x :: rest => (Z_toString (Z.of_nat i), x) :: indexed (S i) rest
  end.

(** What [...headers] copies: the fields of a record, the indexed pairs of an
    array, nothing of a [Headers] instance (its entries are not own
    properties). *)
Definition own_enumerable (hs : HeadersInit) : list (string * value) :=
  match hs with
  | HeadersRecord fields => map (fun kv => (fst kv, VString (snd kv))) fields
  | HeadersPairs pairs =>
      indexed 0 (map (fun kv => VArray [VString (fst kv); VString (snd kv)]) pairs)
  | HeadersInstance _ => []
  end.

(** [RequestOptions] of api.ts; every field is optional, an absent [body] is
    [undefined]. *)
Record RequestOptions : Type := {
  method : option HttpMethod;
  headers : option HeadersInit;
  body : value;
  cache : option RequestCache;
  credentials : option RequestCredentials
}.

(** [{}] *)
Definition empty_options : RequestOptions :=
  {| method := None; headers := None; body := VUndefined;
     cache := None; credentials := None |}.

(** The [RequestInit] handed to [fetch]. *)
Record RequestInit : Type := {
  init_method : HttpMethod;
  init_headers : list (string * value);
  init_cache : option RequestCache;
  init_credentials : option RequestCredentials;
  init_body : option string
}.

(** [ApiResponse<T>] of api.ts: [None] is an absent property. *)
Record ApiResponse : Type := {
  data : option value;
  error : option value;
  statusCode : Z
}.

(** Reading an optional property. *)
Definition read (p : option value) : value :=
  match p with
  | Some v => v
  | None => VUndefined
  end.

(** What the host's [Response] answers to the calls the wrapper makes on it:
    [status], [headers.get('content-type')], [json()] and [text()]. *)
Record Response : Type := {
  status : Z;
  content_type : option string;
  json : result value;
  text : result string
}.

(** [response.ok]: a status in the range 200-299. *)
Definition ok (r : Response) : bool := (200 <=? status r)%Z && (status r <=? 299)%Z.

(** The host: Number::toString, [process.env.NEXT_PUBLIC_API_URL], the
    outcome of [fetch] (a rejection or a response) and the e-mail pattern of
    zod's [.email()]. *)
Record Host : Type := {
  Number_toString : float -> string;
  NEXT_PUBLIC_API_URL : option string;
  fetch : string -> RequestInit -> result Response;
  isEmail : string -> bool
}.

(** ** Effects *)

Inductive logged : Type :=
| LogValue (v : value)
| LogThrown (t : thrown).

(** The observable actions: a [fetch] call, [console.error], a call of
    [schema.parse], the state setters of the login form and [router.push]. *)
Inductive event : Type :=
| Fetch (url : string) (init : RequestInit)
| ConsoleError (args : list logged)
| SchemaParse (input : value)
| SetIsLoading (b : bool)
| SetError (e : option string)
| RouterPush (href : string).

(** A computation: how it ends (a thrown value or a result) and the trace of
    its actions, in order. *)
Definition IO (A : Type) : Type := (result A * list event)%type.

Definition outcome {A : Type} (m : IO A) : result A := fst m.
Definition trace {A : Type} (m : IO A) : list event := snd m.

Definition ret {A : Type} (a : A) : IO A := (inr a, []).
Definition throw {A : Type} (t : thrown) : IO A := (inl t, []).
Definition emit (e : event) : IO unit := (inr tt, [e]).
Definition lift {A : Type} (r : result A) : IO A := (r, []).

Definition bind {A B : Type} (m : IO A) (k : A -> IO B) : IO B :=
  match m with
  | (inl t, tr) => (inl t, tr)
  | (inr a, tr) => let (r, tr') := k a in (r, tr ++ tr')
  end.

(** [try { m } catch (e) { handler e }] *)
Definition try_catch {A : Type} (m : IO A) (handler : thrown -> IO A) : IO A :=
  match m with
  | (inl t, tr) => let (r, tr') := handler t in (r, tr ++ tr')
  | (inr a, tr) => (inr a, tr)
  end.

(** [try { m } finally { final }] *)
Definition try_finally {A : Type} (m : IO A) (final : IO unit) : IO A :=
  let (r, tr) := m in
  let (r', tr') := final in
  (match r' with
   | inl t => inl t
   | inr _ => r
   end, tr ++ tr').

Declare Scope io_scope.
Delimit Scope io_scope with io.
Notation "x <- m ;; k" := (bind m (fun x => k))
  (at level 61, m at next level, right associativity) : io_scope.
Notation "m ;;; k" := (bind m (fun _ => k))
  (at level 61, right associativity) : io_scope.
Open Scope io_scope.

(** [await fetch(url, init)] *)
Definition call_fetch (h : Host) (url : string) (init : RequestInit) : IO Response :=
  (fetch h url init, [Fetch url init]).

Definition console_error (args : list logged) : IO unit := emit (ConsoleError args).

(** ** src/utils/api.ts *)

(** [process.env.NEXT_PUBLIC_API_URL || 'http://localhost:8000/api'] *)
Definition API_BASE_URL (h : Host) : string :=
  match NEXT_PUBLIC_API_URL h with
  | Some url => if ToBoolean (VString url) then url else "http://localhost:8000/api"
  | None => "http://localhost:8000/api"
  end.

(** [contentType && contentType.includes('application/json')] *)
Definition is_json (contentType : option string) : bool :=
  match contentType with
  | Some ct => ToBoolean (VString ct) && includes ct "application/json"
  | None => false
  end.

(** The [try] block of [apiRequest] (api.ts, lines 42-87), after the
    destructuring [{ method = 'GET', headers = {}, body, ...restOptions }]. *)
Definition apiRequest_try (h : Host) (endpoint : string) (options : RequestOptions)
  : IO ApiResponse :=
  let method_ := match method options with Some m => m | None => GET end in
  let headers_ := match headers options with Some hs => hs | None => HeadersRecord [] end in
  let requestHeaders :=
    spread [("Content-Type", VString "application/json")] (own_enumerable headers_) in
  let requestOptions :=
    {| init_method := method_;
       init_headers := requestHeaders;
       init_cache := cache options;
       init_credentials := credentials options;
       init_body := None |} in
  requestOptions <-
    match body options with
    | VUndefined => ret requestOptions
    | b =>
        s <- lift (JSON_stringify (Number_toString h) b) ;;
        ret {| init_method := init_method requestOptions;
               init_headers := init_headers requestOptions;
               init_cache := init_cache requestOptions;
               init_credentials := init_credentials requestOptions;
               init_body := s |}
    end ;;
  response <- call_fetch h (API_BASE_URL h +++ endpoint) requestOptions ;;
  let statusCode_ := status response in
  let contentType := content_type response in
  if is_json contentType then
    responseData <- lift (json response) ;;
    if ok response then
      ret {| data := Some responseData; error := None; statusCode := statusCode_ |}
    else
      message <- lift (get_message responseData) ;;
      ret {| data := None;
             error := Some (or_else message (VString "An error occurred"));
             statusCode := statusCode_ |}
  else
    if ok response then
      textData <- lift (text response) ;;
      ret {| data := Some (VString textData); error := None; statusCode := statusCode_ |}
    else
      ret {| data := None;
             error := Some (VString ("Request failed with status " +++ Z_toString statusCode_));
             statusCode := statusCode_ |}.

(** The [catch] block of [apiRequest] (api.ts, lines 88-93). *)
Definition apiRequest_catch (caught : thrown) : IO ApiResponse :=
  ret {| data := None;
         error := Some (VString (match caught with
                                 | ErrorObject message => message
                                 | NonError _ => "Network error"
                                 end));
         statusCode := 500 |}.

(** [apiRequest(endpoint, options = {})] *)
Definition apiRequest (h : Host) (endpoint : string) (options : RequestOptions)
  : IO ApiResponse :=
  try_catch (apiRequest_try h endpoint options) apiRequest_catch.

(** [{ ...options }] of an optional argument. *)
Definition spread_options (options : option RequestOptions) : RequestOptions :=
  match options with
  | Some o => o
  | None => empty_options
  end.

Definition with_method (m : HttpMethod) (o : RequestOptions) : RequestOptions :=
  {| method := Some m; headers := headers o; body := body o;
     cache := cache o; credentials := credentials o |}.

Definition with_body (b : value) (o : RequestOptions) : RequestOptions :=
  {| method := method o; headers := headers o; body := b;
     cache := cache o; credentials := credentials o |}.

(** The convenience methods [api.get], [api.post], [api.put], [api.patch] and
    [api.delete]: [{ ...options, method, body: data }]. *)
Module api.

Definition get (h : Host) (endpoint : string) (options : option RequestOptions)
  : IO ApiResponse :=
  apiRequest h endpoint (with_method GET (spread_options options)).

Definition post (h : Host) (endpoint : string) (data_ : value)
  (options : option RequestOptions) : IO ApiResponse :=
  apiRequest h endpoint (with_body data_ (with_method POST (spread_options options))).

Definition put (h : Host) (endpoint : string) (data_ : value)
  (options : option RequestOptions) : IO ApiResponse :=
  apiRequest h endpoint (with_body data_ (with_method PUT (spread_options options))).

Definition patch (h : Host) (endpoint : string) (data_ : value)
  (options : option RequestOptions) : IO ApiResponse :=
  apiRequest h endpoint (with_body data_ (with_method PATCH (spread_options options))).

Definition delete (h : Host) (endpoint : string) (options : option RequestOptions)
  : IO ApiResponse :=
  apiRequest h endpoint (with_method DELETE (spread_options options)).

End api.

(** A zod schema as [createApiClient] uses it: its [parse] method, which
    returns the parsed value or throws. *)
Definition Schema : Type := value -> result value.

(** [`${id}`] for [id: string | number]. *)
Definition id_toString (h : Host) (id : string + float) : string :=
  match id with
  | inl s => s
  | inr n => Number_toString h n
  end.

(** The client [createApiClient] returns. *)
Record ApiClient : Type := {
  getAll : option RequestOptions -> IO ApiResponse;
  getById : string + float -> option RequestOptions -> IO ApiResponse;
  create : value -> option RequestOptions -> IO ApiResponse;
  update : string + float -> value -> option RequestOptions -> IO ApiResponse;
  remove : string + float -> option RequestOptions -> IO ApiResponse
}.

(** [createApiClient(endpoint, schema)] (api.ts, lines 119-154). *)
Definition createApiClient (h : Host) (endpoint : string) (schema : Schema) : ApiClient :=
  {| getAll := fun options =>
       response <- api.get h endpoint options ;;
       (if ToBoolean (read (data response)) then
          try_catch
            (emit (SchemaParse (read (data response))) ;;;
             _ <- lift (schema (read (data response))) ;;
             ret tt)
            (fun error_ =>
               console_error [LogValue (VString "API response validation failed:");
                              LogThrown error_])
        else ret tt) ;;;
       ret response;
     getById := fun id options =>
       api.get h (endpoint +++ "/" +++ id_toString h id) options;
     create := fun data_ options =>
       api.post h endpoint data_ options;
     update := fun id data_ options =>
       api.put h (endpoint +++ "/" +++ id_toString h id) data_ options;
     remove := fun id options =>
       api.delete h (endpoint +++ "/" +++ id_toString h id) options |}.

(** ** src/types/auth.schema.ts *)

(** The part of zod the auth schema uses: strings with [.email()], [.min(n)]
    and [.max(n)] checks, and objects that strip unknown keys (the default) or
    reject them ([.strict()]). *)
Inductive string_check : Type :=
| Email
| Min (n : nat)
| Max (n : nat).

Inductive unknown_keys : Type := strip | strict.

Inductive ZodType : Type :=
| z_string (checks : list string_check)
| z_object (shape : list (string * ZodType)) (unknownKeys : unknown_keys).

(** One check of a string schema; [.min] and [.max] compare [input.length]. *)
Definition check_string (h : Host) (s : string) (c : string_check) : bool :=
  match c with
  | Email => isEmail h s
  | Min n => Nat.leb n (String.length s)
  | Max n => Nat.leb (String.length s) n
  end.

(** Is [key] declared by the shape? *)
Definition in_shape {A : Type} (shape : list (string * A)) (key : string) : bool :=
  existsb (String.eqb key) (keys shape).

(** [schema.safeParse(input)]: the parsed data, or [None] when there is an
    issue.  An object schema parses the property of each key of its shape (an
    absent one as [undefined]) and returns the parsed properties in the order
    of the shape; when strict, an input key outside the shape is an issue. *)
Fixpoint safeParse (h : Host) (schema : ZodType) (input : value) : option value :=
  match schema with
  | z_string checks =>
      match input with
      | VString s => if forallb (check_string h s) checks then Some input else None
      | _ => None
      end
  | z_object shape unknownKeys =>
      match input with
      | VObject props =>
          match (fix fields (l : list (string * ZodType)) : option (list (string * value)) :=
                   match l with
                   | [] => Some []
                   | (k, s) :: rest =>
                       match safeParse h s (read (lookup k props)), fields rest with
                       | Some v, Some vs => Some ((k, v) :: vs)
                       | _, _ => None
                       end
                   end) shape with
          | Some parsed =>
              match unknownKeys with
              | strip => Some (VObject parsed)
              | strict =>
                  if forallb (in_shape shape) (keys props) then Some (VObject parsed)
                  else None
              end
          | None => None
          end
      | _ => None
      end
  end.

(** [LoginBody] (auth.schema.ts, lines 4-9). *)
Definition LoginBody : ZodType :=
  z_object [("email", z_string [Email]);
            ("password", z_string [Min 6; Max 100])] strict.

(** [RefreshTokenBody] and [LogoutBody] (auth.schema.ts, lines 29-33, 47-51). *)
Definition RefreshTokenBody : ZodType :=
  z_object [("refreshToken", z_string [])] strict.

Definition LogoutBody : ZodType :=
  z_object [("refreshToken", z_string [])] strict.

(** [RefreshTokenResponse] (auth.schema.ts, lines 37-43): two objects that
    are not strict, so unknown keys are stripped. *)
Definition RefreshTokenResponse : ZodType :=
  z_object [("data", z_object [("accessToken", z_string []);
                               ("refreshToken", z_string [])] strip);
            ("message", z_string [])] strip.

(** ** The login form component *)

(** The component's state: [useState(false)], [useState<string | null>(null)],
    [useState(false)]. *)
Module State.

Record t : Type := {
  isLoading : bool;
  error : option string;
  showPassword : bool
}.

Definition initial : t :=
  {| isLoading := false; error := None; showPassword := false |}.

(** The effect of one action on the state: only the setters change it. *)
Definition step (st : t) (e : event) : t :=
  match e with
  | SetIsLoading b =>
      {| isLoading := b; error := error st; showPassword := showPassword st |}
  | SetError msg =>
      {| isLoading := isLoading st; error := msg; showPassword := showPassword st |}
  | _ => st
  end.

Definition run (st : t) (tr : list event) : t := fold_left step tr st.

End State.

Definition setIsLoading (b : bool) : IO unit := emit (SetIsLoading b).
Definition setError (e : option string) : IO unit := emit (SetError e).
Definition router_push (href : string) : IO unit := emit (RouterPush href).

(** [onSubmit(values)] (login form, lines 32-53). *)
Definition onSubmit (h : Host) (values : value) : IO unit :=
  setIsLoading true ;;;
  setError None ;;;
  try_finally
    (try_catch
       (response <- api.post h "/api/auth/login" values None ;;
        if ToBoolean (read (data response)) then
          router_push "/home"
        else
          console_error [LogValue (read (error response))] ;;;
          message <- lift (new_Error_message (Number_toString h)
                             (or_else (read (error response)) (VString "Login failed"))) ;;
          throw (ErrorObject message))
       (fun err =>
          setError (Some (match err with
                          | ErrorObject message => message
                          | NonError _ => "Login failed. Please try again."
                          end))))
    (setIsLoading false).

(** [handleGoogleLogin()] (login form, lines 55-69): the [try] block is
    empty. *)
Definition handleGoogleLogin : IO unit :=
  setIsLoading true ;;;
  setError None ;;;
  try_finally
    (try_catch
       (ret tt)
       (fun err =>
          setError (Some (match err with
                          | ErrorObject message => message
                          | NonError _ => "Google login failed. Please try again."
                          end))))
    (setIsLoading false).

(** [zodResolver(LoginBody)]: the parsed values, or [None] with the issues kept
    in the form's own error state. *)
Definition zodResolver (h : Host) (schema : ZodType) (fieldValues : value) : option value :=
  safeParse h schema fieldValues.

(** [form.handleSubmit(onSubmit)] on the submitted field values: the valid
    handler runs on the resolver's values, and not at all when the resolver
    reports an issue. *)
Definition handleSubmit (h : Host) (onValid : value -> IO unit) (fieldValues : value)
  : IO unit :=
  match zodResolver h LoginBody fieldValues with
  | Some values => onValid values
  | None => ret tt
  end.

(** The error banner, [{error && (<div ...>{error}</div>)}] (login form,
    lines 78-82): the text shown, if any. *)
Definition error_banner (st : State.t) : option string :=
  match State.error st with
  | Some message => if ToBoolean (VString message) then Some message else None
  | None => None
  end.

(** The label of the submit button, [isLoading ? 'Logging in...' : 'Login']. *)
Definition submit_label (st : State.t) : string :=
  if State.isLoading st then "Logging in..." else "Login".

(** ** Hosts for worked examples *)

(** Number::toString on the doubles that are integers below 10^21, which are
    all the numbers of the examples (a fraction would print as an integer). *)
Definition integral_toString (n : float) : string :=
  match Prim2SF n with
  | S754_zero _ => "0"
  | S754_infinity false => "Infinity"
  | S754_infinity true => "-Infinity"
  | S754_nan => "NaN"
  | S754_finite s m e => (if s then "-" else EmptyString) +++ Z_toString (Z.shiftl (Zpos m) e)
  end.

(** A host that answers every [fetch] with [answer]: the environment variable
    is unset, and an e-mail address is a string with an [@] in it. *)
Definition host_answering (answer : result Response) : Host :=
  {| Number_toString := integral_toString;
     NEXT_PUBLIC_API_URL := None;
     fetch := fun _ _ => answer;
     isEmail := fun s => includes s "@" |}.

(** The login values used in the examples. *)
Definition example_values : value :=
  VObject [("email", VString "staff@foodcourt.vn"); ("password", VString "secret1")].

(** 400 Bad Request whose JSON body carries a list of validation messages. *)
Definition validation_failure : Response :=
  {| status := 400;
     content_type := Some "application/json; charset=utf-8";
     json := inr (VObject [("statusCode", VNumber 400);
                           ("message", VArray [VString "email must be an email"]);
                           ("error", VString "Bad Request")]);
     text := inr EmptyString |}.

(** 400 Bad Request whose JSON body carries an empty list of messages. *)
Definition empty_message_list : Response :=
  {| status := 400;
     content_type := Some "application/json";
     json := inr (VObject [("message", VArray [])]);
     text := inr EmptyString |}.

(** 401 Unauthorized with a message string. *)
Definition unauthorized : Response :=
  {| status := 401;
     content_type := Some "application/json";
     json := inr (VObject [("message", VString "Invalid credentials")]);
     text := inr EmptyString |}.

(** 200 OK declared as JSON whose body does not parse. *)
Definition unparsable_ok : Response :=
  {| status := 200;
     content_type := Some "application/json";
     json := inl (ErrorObject "Unexpected token < in JSON at position 0");
     text := inr "<html></html>" |}.

(** 200 OK with the tokens and the account of the login response. *)
Definition login_ok : Response :=
  {| status := 200;
     content_type := Some "application/json; charset=utf-8";
     json := inr (VObject
                    [("data", VObject [("accessToken", VString "at");
                                       ("refreshToken", VString "rt");
                                       ("account", VObject [("id", VNumber 1);
                                                            ("name", VString "Staff");
                                                            ("email", VString "staff@foodcourt.vn");
                                                            ("role", VString "Owner")])]);
                     ("message", VString "Login successfully")]);
     text := inr EmptyString |}.

(** Caller-supplied headers that name their own content type. *)
Definition text_plain_options : RequestOptions :=
  {| method := None;
     headers := Some (HeadersRecord [("Content-Type", "text/plain")]);
     body := VUndefined;
     cache := None;
     credentials := None |}.

(** ** Vocabulary of the properties *)

(** The request the [try] block builds before it calls [fetch] (a throw of
    [JSON.stringify] ends the block there). *)
Definition build_request (h : Host) (options : RequestOptions) : result RequestInit :=
  let init :=
    {| init_method := match method options with Some m => m | None => GET end;
       init_headers :=
         spread [("Content-Type", VString "application/json")]
           (own_enumerable (match headers options with
                            | Some hs => hs
                            | None => HeadersRecord []
                            end));
       init_cache := cache options;
       init_credentials := credentials options;
       init_body := None |} in
  match body options with
  | VUndefined => inr init
  | b =>
      match JSON_stringify (Number_toString h) b with
      | inl t => inl t
      | inr s =>
          inr {| init_method := init_method init;
                 init_headers := init_headers init;
                 init_cache := init_cache init;
                 init_credentials := init_credentials init;
                 init_body := s |}
      end
  end.

(** What the [try] block makes of the response. *)
Definition shape_response (response : Response) : result ApiResponse :=
  if is_json (content_type response) then
    match json response with
    | inl t => inl t
    | inr responseData =>
        if ok response then
          inr {| data := Some responseData; error := None; statusCode := status response |}
        else
          match get_message responseData with
          | inl t => inl t
          | inr message =>
              inr {| data := None;
                     error := Some (or_else message (VString "An error occurred"));
                     statusCode := status response |}
          end
    end
  else if ok response then
    match text response with
    | inl t => inl t
    | inr textData =>
        inr {| data := Some (VString textData); error := None;
               statusCode := status response |}
    end
  else
    inr {| data := None;
           error := Some (VString ("Request failed with status "
                                   +++ Z_toString (status response)));
           statusCode := status response |}.

Definition is_Fetch (e : event) : bool :=
  match e with
  | Fetch _ _ => true
  | _ => false
  end.

Definition is_SchemaParse (e : event) : bool :=
  match e with
  | SchemaParse _ => true
  | _ => false
  end.

Definition is_SetIsLoading (e : event) : bool :=
  match e with
  | SetIsLoading _ => true
  | _ => false
  end.

(** The number of [fetch] calls of a trace. *)
Definition fetch_count (tr : list event) : nat := List.length (filter is_Fetch tr).

(** [typeof v === 'string'] *)
Definition is_string (v : value) : bool :=
  match v with
  | VString _ => true
  | _ => false
  end.

(** The response the [catch] block returns. *)
Definition caught_response (caught : thrown) : ApiResponse :=
  {| data := None;
     error := Some (VString (match caught with
                             | ErrorObject message => message
                             | NonError _ => "Network error"
                             end));
     statusCode := 500 |}.

(** The properties [...headers] copies into the request headers. *)
Definition caller_headers (options : RequestOptions) : list (string * value) :=
  own_enumerable (match headers options with
                  | Some hs => hs
                  | None => HeadersRecord []
                  end).

(** The message [onSubmit] hands to [setError] after a response without
    data: the message of the [Error] it throws, or of the TypeError raised
    while building it. *)
Definition failure_message (h : Host) (r : ApiResponse) : string :=
  match new_Error_message (Number_toString h)
          (or_else (read (error r)) (VString "Login failed")) with
  | inr message => message
  | inl (ErrorObject message) => message
  | inl (NonError _) => "Login failed. Please try again."
  end.

(** What [onSubmit] does between the response and the [finally] block. *)
Definition after_response (h : Host) (r : ApiResponse) : list event :=
  if ToBoolean (read (data r)) then [RouterPush "/home"]
  else [ConsoleError [LogValue (read (error r))];
        SetError (Some (failure_message h r))].

(** What [getAll] does after the response: the call of [schema.parse] on
    truthy data, and the log of its failure. *)
Definition validation_log (schema : Schema) (r : ApiResponse) : list event :=
  if ToBoolean (read (data r)) then
    SchemaParse (read (data r))
      :: match schema (read (data r)) with
         | inl failure =>
             [ConsoleError [LogValue (VString "API response validation failed:");
                            LogThrown failure]]
         | inr _ => []
         end
  else [].

(** The constraints on a submission, in the words of the specification: the
    e-mail field has the shape of an e-mail address, the password has at least
    6 and at most 100 characters (its [length]), and no field other than these
    two is present. *)
Definition login_constraints (h : Host) (submitted : value) : Prop :=
  exists props email_ password_,
    submitted = VObject props /\
    lookup "email" props = Some (VString email_) /\
    isEmail h email_ = true /\
    lookup "password" props = Some (VString password_) /\
    6 <= String.length password_ <= 100 /\
    (forall k, In k (keys props) -> k = "email" \/ k = "password").

(** The JSON text of the validated login values. *)
Definition login_json (email_ password_ : string) : string :=
  "{" +++ String.concat ","
            [QuoteJSONString "email" +++ ":" +++ QuoteJSONString email_;
             QuoteJSONString "password" +++ ":" +++ QuoteJSONString password_]
      +++ "}".

(** ** More hosts and vocabulary *)

(** 404 Not Found declared as JSON whose body is the JSON text [null]. *)
Definition not_found_null : Response :=
  {| status := 404;
     content_type := Some "application/json";
     json := inr VNull;
     text := inr "null" |}.

(** 503 Service Unavailable whose JSON body has no [message]. *)
Definition unavailable_no_message : Response :=
  {| status := 503;
     content_type := Some "application/json";
     json := inr (VObject [("code", VString "maintenance")]);
     text := inr EmptyString |}.

(** 502 Bad Gateway with an HTML page whose body cannot be read any more. *)
Definition bad_gateway : Response :=
  {| status := 502;
     content_type := Some "text/html";
     json := inl (ErrorObject "Unexpected token < in JSON at position 0");
     text := inl (ErrorObject "body stream already read") |}.

(** 204 No Content: no content type, an empty body. *)
Definition no_content : Response :=
  {| status := 204;
     content_type := None;
     json := inl (ErrorObject "Unexpected end of JSON input");
     text := inr EmptyString |}.


(** The fields of an object schema parsed against the properties [props],
    as [safeParse] does it. *)
Definition parse_fields (h : Host) (props : list (string * value))
  : list (string * ZodType) -> option (list (string * value)) :=
  fix fields (l : list (string * ZodType)) : option (list (string * value)) :=
    match l with
    | [] => Some []
    | (k, s) :: rest =>
        match safeParse h s (read (lookup k props)), fields rest with
        | Some v, Some vs => Some ((k, v) :: vs)
        | _, _ => None
        end
    end.

(** No key occurs twice. *)
Fixpoint distinct (l : list string) : bool :=
  match l with
  | [] => true
  | k :: rest => negb (existsb (String.eqb k) rest) && distinct rest
  end.

(** A schema whose shapes, at every depth, name each key once (as the object
    literal of a shape does). *)
Fixpoint well_formed (schema : ZodType) : bool :=
  match schema with
  | z_string _ => true
  | z_object shape _ =>
      distinct (keys shape) &&
      (fix all (l : list (string * ZodType)) : bool :=
         match l with
         | [] => true
         | (_, s) :: rest => well_formed s && all rest
         end) shape
  end.

Definition is_RouterPush (e : event) : bool :=
  match e with
  | RouterPush _ => true
  | _ => false
  end.

Definition is_SetError (e : event) : bool :=
  match e with
  | SetError _ => true
  | _ => false
  end.

(** [200 <= statusCode <= 299] *)
Definition success_status (code : Z) : bool := (200 <=? code)%Z && (code <=? 299)%Z.

(** * Properties *)

(** Case analysis on the scrutinee of the first [match] or [if] of the goal. *)
Ltac break_match :=
  match goal with
  | |- context [match ?x with _ => _ end] =>
      match type of x with
      | sum _ _ => destruct x
      | result _ => destruct x
      | bool => destruct x
      | option _ => destruct x
      end
  | |- context [if ?x then _ else _] => destruct x
  end.

(** ** Worked examples *)

Example spread_overrides_in_place :
  spread [("Content-Type", VString "application/json"); ("Accept", VString "*/*")]
         [("X-Trace", VString "1"); ("Content-Type", VString "text/plain")]
  = [("Content-Type", VString "text/plain"); ("Accept", VString "*/*");
     ("X-Trace", VString "1")].
Proof. reflexivity. Qed.

Example empty_array_prints_empty :
  ToString integral_toString (VArray []) = inr EmptyString /\
  ToString integral_toString (VArray [VString "a"; VNull; VArray [VNumber 1; VNumber 2]])
  = inr "a,,1,2" /\
  ToString integral_toString (VObject [("message", VString "x")]) = inr "[object Object]".
Proof. repeat split. Qed.

Example bigint_body_is_not_sent :
  apiRequest (host_answering (inr unauthorized)) "/orders"
    (with_body (VObject [("total", VBigInt 12)]) (with_method POST empty_options))
  = (inr {| data := None;
            error := Some (VString "Do not know how to serialize a BigInt");
            statusCode := 500 |}, []).
Proof. reflexivity. Qed.

Example login_values_accepted :
  safeParse (host_answering (inr unauthorized)) LoginBody
    (VObject [("password", VString "secret1"); ("email", VString "staff@foodcourt.vn")])
  = Some example_values.
Proof. reflexivity. Qed.

Example short_password_rejected :
  safeParse (host_answering (inr unauthorized)) LoginBody
    (VObject [("email", VString "staff@foodcourt.vn"); ("password", VString "12345")])
  = None.
Proof. reflexivity. Qed.

Example extra_field_rejected :
  safeParse (host_answering (inr unauthorized)) LoginBody
    (VObject [("email", VString "staff@foodcourt.vn"); ("password", VString "secret1");
              ("remember", VBoolean true)])
  = None.
Proof. reflexivity. Qed.

Example successful_login_trace :
  onSubmit (host_answering (inr login_ok)) example_values
  = (inr tt,
     [SetIsLoading true; SetError None;
      Fetch "http://localhost:8000/api/api/auth/login"
        {| init_method := POST;
           init_headers := [("Content-Type", VString "application/json")];
           init_cache := None;
           init_credentials := None;
           init_body := Some (login_json "staff@foodcourt.vn" "secret1") |};
      RouterPush "/home";
      SetIsLoading false]).
Proof. reflexivity. Qed.

Example rejected_login_trace :
  onSubmit (host_answering (inr unauthorized)) example_values
  = (inr tt,
     [SetIsLoading true; SetError None;
      Fetch "http://localhost:8000/api/api/auth/login"
        {| init_method := POST;
           init_headers := [("Content-Type", VString "application/json")];
           init_cache := None;
           init_credentials := None;
           init_body := Some (login_json "staff@foodcourt.vn" "secret1") |};
      ConsoleError [LogValue (VString "Invalid credentials")];
      SetError (Some "Invalid credentials");
      SetIsLoading false]).
Proof. reflexivity. Qed.

(** ** Objects *)

Lemma lookup_app : forall (A : Type) (k : string) (l1 l2 : list (string * A)),
  lookup k (l1 ++ l2) =
  match lookup k l1 with
  | Some v => Some v
  | None => lookup k l2
  end.
Proof.
  induction l1 as [| [k' v'] l1 IH]; intros l2; simpl.
  - reflexivity.
  - destruct (String.eqb k' k); [reflexivity | apply IH].
Qed.

Lemma lookup_set_property : forall (A : Type) (k k' : string) (v : A) (o : list (string * A)),
  lookup k (set_property k' v o) = if String.eqb k' k then Some v else lookup k o.
Proof.
  induction o as [| [k0 v0] o IH]; simpl.
  - reflexivity.
  - destruct (String.eqb k0 k') eqn:E0; simpl.
    + apply String.eqb_eq in E0; subst k0.
      destruct (String.eqb k' k); reflexivity.
    + destruct (String.eqb k0 k) eqn:E1.
      * apply String.eqb_eq in E1; subst k0. rewrite String.eqb_sym, E0. reflexivity.
      * exact IH.
Qed.

(** After a spread, a key reads the last value the source gives it, and the
    target's value when the source has none. *)
Lemma lookup_spread : forall (A : Type) (k : string) (source target : list (string * A)),
  lookup k (spread target source) =
  match lookup k (rev source) with
  | Some v => Some v
  | None => lookup k target
  end.
Proof.
  unfold spread.
  induction source as [| [k' v'] source IH]; intros target; simpl.
  - reflexivity.
  - rewrite IH, lookup_app, lookup_set_property; simpl.
    destruct (lookup k (rev source)); [reflexivity |].
    destruct (String.eqb k' k); reflexivity.
Qed.

(** ** The shape of [apiRequest] *)

Lemma apiRequest_try_unfold : forall h endpoint options,
  apiRequest_try h endpoint options =
  match build_request h options with
  | inl t => (inl t, [])
  | inr init =>
      (match fetch h (API_BASE_URL h +++ endpoint) init with
       | inl t => inl t
       | inr response => shape_response response
       end, [Fetch (API_BASE_URL h +++ endpoint) init])
  end.
Proof.
  intros h endpoint options.
  unfold apiRequest_try, build_request, shape_response, call_fetch, bind, lift, ret.
  destruct (body options); repeat break_match; reflexivity.
Qed.

Lemma apiRequest_unfold : forall h endpoint options,
  apiRequest h endpoint options =
  match apiRequest_try h endpoint options with
  | (inl caught, tr) => (inr (caught_response caught), tr)
  | (inr r, tr) => (inr r, tr)
  end.
Proof.
  intros h endpoint options. unfold apiRequest, try_catch, apiRequest_catch, ret.
  destruct (apiRequest_try h endpoint options) as [[caught | r] tr]; simpl.
  - rewrite app_nil_r. reflexivity.
  - reflexivity.
Qed.

(** [apiRequest] never throws: whatever the [try] block does, a response is
    returned. *)
Lemma apiRequest_returns : forall h endpoint options,
  exists r, outcome (apiRequest h endpoint options) = inr r.
Proof.
  intros h endpoint options. rewrite apiRequest_unfold.
  destruct (apiRequest_try h endpoint options) as [[caught | r] tr]; simpl; eauto.
Qed.

(** The trace of [apiRequest] is the one of its [try] block. *)
Lemma apiRequest_trace : forall h endpoint options,
  trace (apiRequest h endpoint options) = trace (apiRequest_try h endpoint options).
Proof.
  intros h endpoint options. rewrite apiRequest_unfold.
  destruct (apiRequest_try h endpoint options) as [[caught | r] tr]; reflexivity.
Qed.

(** [apiRequest] does nothing but call [fetch], once, with the request it
    built; it does not even do that when the body cannot be serialized. *)
Lemma apiRequest_trace_request : forall h endpoint options,
  trace (apiRequest h endpoint options) =
  match build_request h options with
  | inl _ => []
  | inr init => [Fetch (API_BASE_URL h +++ endpoint) init]
  end.
Proof.
  intros h endpoint options. rewrite apiRequest_trace, apiRequest_try_unfold.
  destruct (build_request h options); reflexivity.
Qed.

(** A shaped response has data and no error, or an error and no data. *)
Lemma shape_response_one_of : forall response r,
  shape_response response = inr r ->
  (data r <> None /\ error r = None /\ ok response = true) \/
  (data r = None /\ error r <> None /\ ok response = false).
Proof.
  intros response r. unfold shape_response.
  destruct (is_json (content_type response)), (ok response);
    repeat break_match;
    intros H; inversion H; subst; simpl; intuition congruence.
Qed.

(** Every response of [apiRequest] has exactly one of [data] and [error]. *)
Lemma apiRequest_data_xor_error : forall h endpoint options r,
  outcome (apiRequest h endpoint options) = inr r ->
  (data r <> None /\ error r = None) \/ (data r = None /\ error r <> None).
Proof.
  intros h endpoint options r. rewrite apiRequest_unfold, apiRequest_try_unfold.
  destruct (build_request h options) as [t | init]; simpl.
  - intros H; inversion H; subst; simpl. right. split; congruence.
  - destruct (fetch h (API_BASE_URL h +++ endpoint) init) as [t | response]; simpl.
    + intros H; inversion H; subst; simpl. right. split; congruence.
    + destruct (shape_response response) as [t | r'] eqn:E; simpl.
      * intros H; inversion H; subst; simpl. right. split; congruence.
      * intros H; inversion H; subst.
        destruct (shape_response_one_of _ _ E) as [[? [? _]] | [? [? _]]]; auto.
Qed.

(** The error is a string on every path but one: a JSON response that is not
    ok, whose [message] is truthy and not a string. *)
Lemma apiRequest_error_is_string : forall h endpoint options r e,
  outcome (apiRequest h endpoint options) = inr r ->
  error r = Some e ->
  is_string e = true \/
  exists init response responseData,
    fetch h (API_BASE_URL h +++ endpoint) init = inr response /\
    is_json (content_type response) = true /\
    ok response = false /\
    json response = inr responseData /\
    get_message responseData = inr e /\
    ToBoolean e = true /\
    is_string e = false.
Proof.
  intros h endpoint options r e. rewrite apiRequest_unfold, apiRequest_try_unfold.
  destruct (build_request h options) as [t | init]; simpl.
  { intros H; inversion H; subst; simpl. intros He; inversion He. auto. }
  destruct (fetch h (API_BASE_URL h +++ endpoint) init) as [t | response] eqn:Ef; simpl.
  { intros H; inversion H; subst; simpl. intros He; inversion He. auto. }
  unfold shape_response.
  destruct (is_json (content_type response)) eqn:Ej.
  - destruct (json response) as [t | responseData] eqn:Ed; simpl.
    { intros H; inversion H; subst; simpl. intros He; inversion He. auto. }
    destruct (ok response) eqn:Eo; simpl.
    { intros H; inversion H; subst; simpl. discriminate. }
    destruct (get_message responseData) as [t | message] eqn:Em; simpl.
    { intros H; inversion H; subst; simpl. intros He; inversion He. auto. }
    intros H; inversion H; subst; simpl. intros He; inversion He; subst. clear H He.
    unfold or_else. destruct (ToBoolean message) eqn:Eb.
    + destruct (is_string message) eqn:Es; [auto |].
      right. exists init, response, responseData. repeat split; assumption.
    + auto.
  - destruct (ok response) eqn:Eo; simpl.
    + destruct (text response) as [t | textData]; simpl;
        intros H; inversion H; subst; simpl; [intros He; inversion He; auto | discriminate].
    + intros H; inversion H; subst; simpl. intros He; inversion He. auto.
Qed.

(** C2. Of the uniform error shaping only the error string fails: on a
    response that is not ok and whose JSON body has a list under [message]
    (here 400 with the list of one validation message) [apiRequest] returns
    that list as the error of its [ApiResponse], not a string. *)
Theorem apiRequest_error_not_a_string :
  outcome (apiRequest (host_answering (inr validation_failure)) "/api/auth/login"
             (with_body example_values (with_method POST empty_options)))
  = inr {| data := None;
           error := Some (VArray [VString "email must be an email"]);
           statusCode := 400 |} /\
  is_string (VArray [VString "email must be an email"]) = false.
Proof. split; reflexivity. Qed.

(** ** What the catch block returns *)

(** C10. Whenever [apiRequest] catches an exception the status code of the
    response it returns is 500; in particular when [response.json()] rejects
    on a response whose HTTP status is in the range 200-299. *)
Theorem caught_status_is_500 : forall h endpoint options,
  (forall caught tr,
     apiRequest_try h endpoint options = (inl caught, tr) ->
     exists r, outcome (apiRequest h endpoint options) = inr r /\ statusCode r = 500%Z) /\
  (forall init response parse_failure,
     build_request h options = inr init ->
     fetch h (API_BASE_URL h +++ endpoint) init = inr response ->
     ok response = true ->
     is_json (content_type response) = true ->
     json response = inl parse_failure ->
     apiRequest_try h endpoint options
       = (inl parse_failure, [Fetch (API_BASE_URL h +++ endpoint) init]) /\
     exists r, outcome (apiRequest h endpoint options) = inr r /\ statusCode r = 500%Z).
Proof.
  intros h endpoint options.
  assert (G : forall caught tr,
             apiRequest_try h endpoint options = (inl caught, tr) ->
             exists r, outcome (apiRequest h endpoint options) = inr r
                       /\ statusCode r = 500%Z).
  { intros caught tr E. rewrite apiRequest_unfold, E. simpl.
    exists (caught_response caught). split; reflexivity. }
  split; [exact G |].
  intros init response parse_failure Eb Ef Eo Ej Ed.
  assert (E : apiRequest_try h endpoint options
              = (inl parse_failure, [Fetch (API_BASE_URL h +++ endpoint) init])).
  { rewrite apiRequest_try_unfold, Eb, Ef. unfold shape_response.
    rewrite Ej, Ed. reflexivity. }
  split; [exact E | exact (G _ _ E)].
Qed.

(** The case of [unparsable_ok]: status 200, declared JSON, [json()] rejects. *)
Lemma caught_status_is_500_witness :
  ok unparsable_ok = true /\
  exists r,
    outcome (apiRequest (host_answering (inr unparsable_ok)) "/api/auth/login"
               (with_body example_values (with_method POST empty_options))) = inr r /\
    statusCode r = 500%Z.
Proof.
  split; [reflexivity |].
  eapply (proj1 (caught_status_is_500 (host_answering (inr unparsable_ok))
                   "/api/auth/login"
                   (with_body example_values (with_method POST empty_options)))).
  reflexivity.
Defined.

(** C3 as stated fails: no single message is returned for all caught
    exceptions; a rejection of [fetch] and a rejection of [response.json()],
    each with its own message, give two different error fields. *)
Lemma caught_error_is_not_generic :
  ~ (exists generic : string,
       forall h endpoint options caught tr,
         apiRequest_try h endpoint options = (inl caught, tr) ->
         exists r, outcome (apiRequest h endpoint options) = inr r /\
                   error r = Some (VString generic)).
Proof.
  intros [generic H].
  destruct (H (host_answering (inl (ErrorObject "Failed to fetch")))
              "/api/auth/login" empty_options
              (ErrorObject "Failed to fetch")
              [Fetch "http://localhost:8000/api/api/auth/login"
                 {| init_method := GET;
                    init_headers := [("Content-Type", VString "application/json")];
                    init_cache := None; init_credentials := None;
                    init_body := None |}]
              eq_refl) as [r1 [E1 G1]].
  destruct (H (host_answering (inr unparsable_ok))
              "/api/auth/login" empty_options
              (ErrorObject "Unexpected token < in JSON at position 0")
              [Fetch "http://localhost:8000/api/api/auth/login"
                 {| init_method := GET;
                    init_headers := [("Content-Type", VString "application/json")];
                    init_cache := None; init_credentials := None;
                    init_body := None |}]
              eq_refl) as [r2 [E2 G2]].
  vm_compute in E1, E2.
  inversion E1; subst r1. inversion E2; subst r2.
  simpl in G1, G2. congruence.
Qed.

(** C3, amended. Whenever [apiRequest] catches an exception, the error of the
    response is the message of the exception itself when it is an instance of
    [Error], and the fixed text [Network error] when it is any other thrown
    value. *)
Theorem caught_error_message : forall h endpoint options caught tr,
  apiRequest_try h endpoint options = (inl caught, tr) ->
  exists r,
    outcome (apiRequest h endpoint options) = inr r /\
    error r = Some (VString (match caught with
                             | ErrorObject message => message
                             | NonError _ => "Network error"
                             end)) /\
    (instanceof_Error caught = false -> error r = Some (VString "Network error")).
Proof.
  intros h endpoint options caught tr E.
  rewrite apiRequest_unfold, E. simpl.
  exists (caught_response caught). repeat split.
  destruct caught; simpl; [discriminate | reflexivity].
Qed.

(** The case of a [fetch] that rejects with a value that is not an [Error]. *)
Lemma caught_error_message_witness :
  exists r,
    outcome (apiRequest (host_answering (inl (NonError (VString "offline"))))
               "/api/auth/login" empty_options) = inr r /\
    error r = Some (VString "Network error").
Proof.
  destruct (caught_error_message (host_answering (inl (NonError (VString "offline"))))
              "/api/auth/login" empty_options (NonError (VString "offline")) _ eq_refl)
    as [r [E [G _]]].
  exists r. split; [exact E | exact G].
Defined.

(** ** The headers of the request *)

Lemma build_request_headers : forall h options init,
  build_request h options = inr init ->
  init_headers init =
  spread [("Content-Type", VString "application/json")] (caller_headers options).
Proof.
  intros h options init. unfold build_request, caller_headers.
  destruct (body options);
    try (destruct (JSON_stringify _ _));
    intros H; inversion H; reflexivity.
Qed.

Lemma fetch_in_trace : forall h endpoint options url init,
  In (Fetch url init) (trace (apiRequest h endpoint options)) ->
  url = API_BASE_URL h +++ endpoint /\ build_request h options = inr init.
Proof.
  intros h endpoint options url init. rewrite apiRequest_trace_request.
  destruct (build_request h options) as [t | init']; simpl.
  - intros [].
  - intros [H | []]. inversion H. split; reflexivity.
Qed.

(** C5 as stated fails: with the caller's headers
    [{ 'Content-Type': 'text/plain' }] the request carries [text/plain]. *)
Lemma content_type_can_be_overridden :
  ~ (forall h endpoint options url init,
       In (Fetch url init) (trace (apiRequest h endpoint options)) ->
       lookup "Content-Type" (init_headers init) = Some (VString "application/json")).
Proof.
  intros H.
  specialize (H (host_answering (inr unauthorized)) "/api/auth/login" text_plain_options
                "http://localhost:8000/api/api/auth/login"
                {| init_method := GET;
                   init_headers := [("Content-Type", VString "text/plain")];
                   init_cache := None; init_credentials := None;
                   init_body := None |}
                (or_introl eq_refl)).
  discriminate H.
Qed.

(** C5, amended. In every request [apiRequest] issues, the header
    [Content-Type] is [application/json] when the caller's headers have no own
    property of that name (always so for an array of pairs or a [Headers]
    instance), and is otherwise the value the caller's headers give it, the
    last one given. *)
Theorem content_type_header : forall h endpoint options url init,
  In (Fetch url init) (trace (apiRequest h endpoint options)) ->
  lookup "Content-Type" (init_headers init) =
  Some (match lookup "Content-Type" (rev (caller_headers options)) with
        | Some supplied => supplied
        | None => VString "application/json"
        end) /\
  (lookup "Content-Type" (caller_headers options) = None ->
   lookup "Content-Type" (init_headers init) = Some (VString "application/json")).
Proof.
  intros h endpoint options url init Hin.
  destruct (fetch_in_trace _ _ _ _ _ Hin) as [_ Hb].
  rewrite (build_request_headers _ _ _ Hb), lookup_spread.
  split.
  - destruct (lookup "Content-Type" (rev (caller_headers options))); reflexivity.
  - intros Hnone.
    assert (R : forall l : list (string * value),
               lookup "Content-Type" l = None -> lookup "Content-Type" (rev l) = None).
    { induction l as [| [k v] l IH]; simpl; [reflexivity |].
      destruct (String.eqb k "Content-Type") eqn:Ek; [discriminate |].
      intros Hl. rewrite lookup_app, (IH Hl). simpl. rewrite Ek. reflexivity. }
    rewrite (R _ Hnone). reflexivity.
Qed.

(** The case of the login request, which passes no headers of its own. *)
Lemma content_type_header_witness :
  exists url init,
    In (Fetch url init)
       (trace (apiRequest (host_answering (inr unauthorized)) "/api/auth/login"
                 (with_body example_values (with_method POST empty_options)))) /\
    lookup "Content-Type" (init_headers init) = Some (VString "application/json").
Proof.
  eexists. eexists.
  split.
  - left. reflexivity.
  - exact (proj2 (content_type_header
                    (host_answering (inr unauthorized)) "/api/auth/login"
                    (with_body example_values (with_method POST empty_options))
                    _ _ (or_introl eq_refl))
             eq_refl).
Defined.

(** Array indices are decimal numerals, so none is [Content-Type]: headers
    given as pairs never replace the default, and neither does a [Headers]
    instance, of which nothing is copied. *)
Lemma indexed_no_content_type : forall (l : list value) (i : nat),
  lookup "Content-Type" (indexed i l) = None.
Proof.
  induction l as [| x l IH]; intros i; simpl.
  - reflexivity.
  - rewrite IH.
    destruct (String.eqb (Z_toString (Z.of_nat i)) "Content-Type") eqn:E0; [| reflexivity].
    exfalso. apply String.eqb_eq in E0. unfold Z_toString in E0.
    destruct (Z.to_int (Z.of_nat i)) as [d | d]; simpl in E0.
    + destruct d; simpl in E0; discriminate E0.
    + discriminate E0.
Qed.

Lemma caller_headers_not_a_record : forall options,
  (forall fields, headers options <> Some (HeadersRecord fields)) ->
  lookup "Content-Type" (caller_headers options) = None.
Proof.
  intros options H. unfold caller_headers.
  destruct (headers options) as [[fields | pairs | entries] |]; simpl.
  - exfalso. apply (H fields). reflexivity.
  - apply indexed_no_content_type.
  - reflexivity.
  - reflexivity.
Qed.

(** ** One fetch, no retry *)

Lemma apiRequest_fetch_count : forall h endpoint options,
  fetch_count (trace (apiRequest h endpoint options)) <= 1.
Proof.
  intros h endpoint options. rewrite apiRequest_trace_request.
  destruct (build_request h options); unfold fetch_count; simpl; lia.
Qed.

(** ** The login form *)

Lemma onSubmit_unfold : forall h values,
  exists r,
    outcome (api.post h "/api/auth/login" values None) = inr r /\
    onSubmit h values =
    (inr tt,
     [SetIsLoading true; SetError None]
       ++ trace (api.post h "/api/auth/login" values None)
       ++ after_response h r ++ [SetIsLoading false]).
Proof.
  intros h values.
  destruct (apiRequest_returns h "/api/auth/login"
              (with_body values (with_method POST (spread_options None)))) as [r Hr].
  exists r. unfold onSubmit, api.post in *.
  destruct (apiRequest h "/api/auth/login"
              (with_body values (with_method POST (spread_options None)))) as [o tr].
  simpl in Hr; subst o. split; [reflexivity |].
  unfold after_response, failure_message, trace; simpl.
  destruct (ToBoolean (read (data r))); simpl.
  - rewrite <- app_assoc. reflexivity.
  - destruct (new_Error_message (Number_toString h)
                (or_else (read (error r)) (VString "Login failed"))) as [[m | v] | m];
      simpl; rewrite <- ?app_assoc; reflexivity.
Qed.

Lemma fetch_count_app : forall tr1 tr2,
  fetch_count (tr1 ++ tr2) = fetch_count tr1 + fetch_count tr2.
Proof.
  intros tr1 tr2. unfold fetch_count. rewrite filter_app, length_app. reflexivity.
Qed.

Lemma after_response_no_fetch : forall h r, fetch_count (after_response h r) = 0.
Proof.
  intros h r. unfold after_response. destruct (ToBoolean (read (data r))); reflexivity.
Qed.

(** The trace of [apiRequest] holds no state setter. *)
Lemma apiRequest_no_setter : forall h endpoint options,
  existsb is_SetIsLoading (trace (apiRequest h endpoint options)) = false /\
  forall st, State.run st (trace (apiRequest h endpoint options)) = st.
Proof.
  intros h endpoint options. rewrite apiRequest_trace_request.
  destruct (build_request h options); split; reflexivity.
Qed.

Lemma run_app : forall st tr1 tr2,
  State.run st (tr1 ++ tr2) = State.run (State.run st tr1) tr2.
Proof. intros st tr1 tr2. unfold State.run. apply fold_left_app. Qed.

(** C4. For every invocation of [onSubmit]: [isLoading] is set to true and the
    error to null first, then comes the login request, and after it
    (whether the login succeeded, failed, or an exception was caught) the last
    action sets [isLoading] to false; no other action touches [isLoading],
    and [onSubmit] itself returns without throwing. *)
Theorem onSubmit_toggles_loading : forall h values,
  exists after,
    trace (onSubmit h values) =
      [SetIsLoading true; SetError None]
        ++ trace (api.post h "/api/auth/login" values None)
        ++ after ++ [SetIsLoading false] /\
    fetch_count after = 0 /\
    existsb is_SetIsLoading (trace (api.post h "/api/auth/login" values None) ++ after)
      = false /\
    outcome (onSubmit h values) = inr tt /\
    forall st,
      State.isLoading (State.run st [SetIsLoading true; SetError None]) = true /\
      State.error (State.run st [SetIsLoading true; SetError None]) = None /\
      State.isLoading
        (State.run st ([SetIsLoading true; SetError None]
                         ++ trace (api.post h "/api/auth/login" values None))) = true /\
      State.isLoading (State.run st (trace (onSubmit h values))) = false.
Proof.
  intros h values.
  destruct (onSubmit_unfold h values) as [r [Hr E]].
  exists (after_response h r). rewrite E. unfold trace at 1, outcome; simpl fst; simpl snd.
  split; [reflexivity |].
  split; [apply after_response_no_fetch |].
  split.
  { rewrite existsb_app. unfold api.post.
    rewrite (proj1 (apiRequest_no_setter _ _ _)). simpl.
    unfold after_response. destruct (ToBoolean (read (data r))); reflexivity. }
  split; [reflexivity |].
  intros st. split; [reflexivity |]. split; [reflexivity |]. split.
  - rewrite run_app. unfold api.post.
    rewrite (proj2 (apiRequest_no_setter _ _ _)). reflexivity.
  - unfold trace at 1; cbn [snd].
    rewrite !app_assoc, run_app. reflexivity.
Qed.

(** C7. No retry: a call of [apiRequest] calls [fetch] at most once and does
    nothing else; when its [try] block throws, it returns the error response
    of the [catch] block and adds no action; [onSubmit] calls [fetch] at most
    once too, and when the response has no data all it does after the request
    is to log the error, set the error message and stop the loading state. *)
Theorem no_retry : forall h endpoint options values,
  fetch_count (trace (apiRequest h endpoint options)) <= 1 /\
  (forall e, In e (trace (apiRequest h endpoint options)) -> is_Fetch e = true) /\
  (forall caught tr,
     apiRequest_try h endpoint options = (inl caught, tr) ->
     apiRequest h endpoint options = (inr (caught_response caught), tr)) /\
  fetch_count (trace (onSubmit h values)) <= 1 /\
  exists r,
    outcome (api.post h "/api/auth/login" values None) = inr r /\
    (ToBoolean (read (data r)) = false ->
     trace (onSubmit h values) =
       [SetIsLoading true; SetError None]
         ++ trace (api.post h "/api/auth/login" values None)
         ++ [ConsoleError [LogValue (read (error r))];
             SetError (Some (failure_message h r));
             SetIsLoading false]).
Proof.
  intros h endpoint options values.
  split; [apply apiRequest_fetch_count |].
  split.
  { rewrite apiRequest_trace_request.
    destruct (build_request h options); simpl; [tauto |].
    intros e [<- | []]. reflexivity. }
  split.
  { intros caught tr E. rewrite apiRequest_unfold, E. reflexivity. }
  destruct (onSubmit_unfold h values) as [r [Hr E]].
  split.
  - rewrite E. unfold trace at 1; cbn [snd].
    rewrite !fetch_count_app, after_response_no_fetch.
    pose proof (apiRequest_fetch_count h "/api/auth/login"
                  (with_body values (with_method POST (spread_options None)))) as Hc.
    unfold api.post.
    change (fetch_count [SetIsLoading true; SetError None]) with 0.
    change (fetch_count [SetIsLoading false]) with 0.
    lia.
  - exists r. split; [exact Hr |].
    intros Hd. rewrite E. unfold trace at 1; cbn [snd].
    unfold after_response. rewrite Hd. reflexivity.
Qed.

(** A response whose error is absent or a string, as [ApiResponse] declares
    it, gives a message that is not empty: the error string itself, or the
    fallback text when there is none or it is empty. *)
Lemma failure_message_of_string_error : forall h r,
  (error r = None \/ exists s, error r = Some (VString s)) ->
  failure_message h r <> EmptyString /\
  (error r = Some (VString (failure_message h r)) \/ failure_message h r = "Login failed").
Proof.
  intros h r [E | [s E]]; unfold failure_message; rewrite E; simpl.
  - split; [discriminate | right; reflexivity].
  - unfold or_else; simpl. destruct s as [| c s]; simpl.
    + split; [discriminate | right; reflexivity].
    + split; [discriminate | left; reflexivity].
Qed.

(** The state after [onSubmit] when the response has no data: the message is
    the error of the form, and the banner shows it unless it is empty. *)
Lemma onSubmit_sets_error : forall h values r st,
  outcome (api.post h "/api/auth/login" values None) = inr r ->
  ToBoolean (read (data r)) = false ->
  State.error (State.run st (trace (onSubmit h values))) = Some (failure_message h r) /\
  error_banner (State.run st (trace (onSubmit h values))) =
  if String.eqb (failure_message h r) EmptyString then None
  else Some (failure_message h r).
Proof.
  intros h values r st Hr Hd.
  destruct (onSubmit_unfold h values) as [r' [Hr' E]].
  rewrite Hr in Hr'. inversion Hr'; subst r'. clear Hr'.
  rewrite E. unfold trace at 1 3; cbn [snd].
  rewrite !run_app. unfold api.post.
  rewrite (proj2 (apiRequest_no_setter _ _ _)).
  unfold after_response. rewrite Hd.
  unfold error_banner. simpl.
  split; [reflexivity |].
  destruct (String.eqb (failure_message h r) EmptyString); reflexivity.
Qed.

(** The error message renders on failure whenever the error of the response
    is what [ApiResponse] declares, a string or nothing. *)
Lemma onSubmit_renders_string_error : forall h values r st,
  outcome (api.post h "/api/auth/login" values None) = inr r ->
  ToBoolean (read (data r)) = false ->
  (error r = None \/ exists s, error r = Some (VString s)) ->
  exists message,
    message <> EmptyString /\
    (error r = Some (VString message) \/ message = "Login failed") /\
    State.error (State.run st (trace (onSubmit h values))) = Some message /\
    error_banner (State.run st (trace (onSubmit h values))) = Some message.
Proof.
  intros h values r st Hr Hd He.
  destruct (failure_message_of_string_error h r He) as [Hne Hor].
  destruct (onSubmit_sets_error h values r st Hr Hd) as [Hs Hb].
  exists (failure_message h r). repeat split; try assumption.
  rewrite Hb. destruct (String.eqb (failure_message h r) EmptyString) eqn:Eq.
  - apply String.eqb_eq in Eq. contradiction.
  - reflexivity.
Qed.

(** C8. The error message does not render on this failure: the login request
    is answered 400 with the JSON body [{ message: [] }]; the response
    [api.post] returns has no data and the empty list as its error, the
    form sets its error state to the empty string, and the banner shows
    nothing. *)
Theorem onSubmit_empty_error_message :
  outcome (api.post (host_answering (inr empty_message_list)) "/api/auth/login"
             example_values None)
  = inr {| data := None; error := Some (VArray []); statusCode := 400 |} /\
  State.error
    (State.run State.initial
       (trace (onSubmit (host_answering (inr empty_message_list)) example_values)))
  = Some EmptyString /\
  error_banner
    (State.run State.initial
       (trace (onSubmit (host_answering (inr empty_message_list)) example_values)))
  = None.
Proof. repeat split. Qed.

(** ** The typed client *)

Lemma apiRequest_no_parse : forall h endpoint options,
  existsb is_SchemaParse (trace (apiRequest h endpoint options)) = false.
Proof.
  intros h endpoint options. rewrite apiRequest_trace_request.
  destruct (build_request h options); reflexivity.
Qed.

(** C9. In the client of [createApiClient] a failure of the schema never
    changes what is returned: [getAll] returns the very response of
    [api.get], whatever [schema.parse] does (it is called on truthy data only,
    and a throw is logged with [console.error]); [getById], [create],
    [update] and [remove] are the plain [api] calls and never call
    [schema.parse]. *)
Theorem createApiClient_never_rejects_a_response :
  forall h endpoint (schema : Schema) options id data_,
  (exists r,
     outcome (api.get h endpoint options) = inr r /\
     outcome (getAll (createApiClient h endpoint schema) options) = inr r /\
     trace (getAll (createApiClient h endpoint schema) options) =
       trace (api.get h endpoint options) ++ validation_log schema r) /\
  (getById (createApiClient h endpoint schema) id options =
     api.get h (endpoint +++ "/" +++ id_toString h id) options /\
   existsb is_SchemaParse
     (trace (getById (createApiClient h endpoint schema) id options)) = false) /\
  (create (createApiClient h endpoint schema) data_ options =
     api.post h endpoint data_ options /\
   existsb is_SchemaParse
     (trace (create (createApiClient h endpoint schema) data_ options)) = false) /\
  (update (createApiClient h endpoint schema) id data_ options =
     api.put h (endpoint +++ "/" +++ id_toString h id) data_ options /\
   existsb is_SchemaParse
     (trace (update (createApiClient h endpoint schema) id data_ options)) = false) /\
  (remove (createApiClient h endpoint schema) id options =
     api.delete h (endpoint +++ "/" +++ id_toString h id) options /\
   existsb is_SchemaParse
     (trace (remove (createApiClient h endpoint schema) id options)) = false).
Proof.
  intros h endpoint schema options id data_.
  split.
  { destruct (apiRequest_returns h endpoint (with_method GET (spread_options options)))
      as [r Hr].
    exists r. unfold createApiClient, getAll, api.get in *.
    destruct (apiRequest h endpoint (with_method GET (spread_options options))) as [o tr].
    simpl in Hr; subst o. split; [reflexivity |].
    unfold validation_log, outcome, trace; simpl.
    destruct (ToBoolean (read (data r))); simpl.
    - destruct (schema (read (data r))); simpl; split; reflexivity.
    - split; reflexivity. }
  repeat split; simpl; apply apiRequest_no_parse.
Qed.

(** ** The login schema *)

Lemma in_shape_LoginBody : forall (A : Type) (s1 s2 : A) (k : string),
  in_shape [("email", s1); ("password", s2)] k = true <-> k = "email" \/ k = "password".
Proof.
  intros A s1 s2 k. unfold in_shape; simpl.
  rewrite !orb_true_iff, !String.eqb_eq. intuition discriminate.
Qed.

Lemma only_login_keys : forall props : list (string * value),
  forallb (in_shape [("email", z_string [Email]); ("password", z_string [Min 6; Max 100])])
    (keys props) = true <->
  (forall k, In k (keys props) -> k = "email" \/ k = "password").
Proof.
  intros props. rewrite forallb_forall.
  split; intros H k Hk.
  - apply (in_shape_LoginBody _ (z_string [Email]) (z_string [Min 6; Max 100])). auto.
  - apply in_shape_LoginBody. auto.
Qed.

(** A string schema accepts strings that pass its checks, and returns them. *)
Lemma safeParse_string : forall h checks input parsed,
  safeParse h (z_string checks) input = Some parsed <->
  exists s, input = VString s /\ parsed = VString s /\
            forallb (check_string h s) checks = true.
Proof.
  intros h checks input parsed. simpl.
  destruct input; try (split; [discriminate | intros (s0 & E & _); discriminate]).
  destruct (forallb (check_string h s) checks) eqn:Ec; split.
  - intros H; inversion H. eauto.
  - intros (s0 & E & -> & _). inversion E. reflexivity.
  - discriminate.
  - intros (s0 & E & _ & Hc). inversion E; subst. congruence.
Qed.

(** What [LoginBody] accepts and what it returns. *)
Lemma safeParse_LoginBody : forall h submitted values,
  safeParse h LoginBody submitted = Some values <->
  exists props email_ password_,
    submitted = VObject props /\
    lookup "email" props = Some (VString email_) /\
    isEmail h email_ = true /\
    lookup "password" props = Some (VString password_) /\
    6 <= String.length password_ <= 100 /\
    (forall k, In k (keys props) -> k = "email" \/ k = "password") /\
    values = VObject [("email", VString email_); ("password", VString password_)].
Proof.
  intros h submitted values.
  destruct submitted as [| | b | n | z | s | elements | props];
    try (split; [discriminate | intros (p0 & e0 & w0 & E & _); discriminate]).
  unfold LoginBody.
  change (safeParse h
            (z_object [("email", z_string [Email]);
                       ("password", z_string [Min 6; Max 100])] strict)
            (VObject props))
    with (match
             match safeParse h (z_string [Email]) (read (lookup "email" props)),
                   match safeParse h (z_string [Min 6; Max 100])
                           (read (lookup "password" props)), Some [] with
                   | Some v, Some vs => Some (("password", v) :: vs)
                   | _, _ => None
                   end with
             | Some v, Some vs => Some (("email", v) :: vs)
             | _, _ => None
             end with
          | Some parsed =>
              if forallb (in_shape [("email", z_string [Email]);
                                    ("password", z_string [Min 6; Max 100])])
                   (keys props)
              then Some (VObject parsed) else None
          | None => None
          end).
  destruct (safeParse h (z_string [Email]) (read (lookup "email" props)))
    as [pe |] eqn:Ee.
  - apply safeParse_string in Ee. destruct Ee as (e & Ere & -> & Hce).
    destruct (safeParse h (z_string [Min 6; Max 100]) (read (lookup "password" props)))
      as [pp |] eqn:Ep.
    + apply safeParse_string in Ep. destruct Ep as (p & Erp & -> & Hcp).
      assert (Hle : lookup "email" props = Some (VString e)).
      { destruct (lookup "email" props); simpl in Ere; [congruence | discriminate]. }
      assert (Hlp : lookup "password" props = Some (VString p)).
      { destruct (lookup "password" props); simpl in Erp; [congruence | discriminate]. }
      cbn [forallb check_string] in Hce, Hcp. rewrite andb_true_r in Hce, Hcp.
      apply andb_true_iff in Hcp. destruct Hcp as [Hmin Hmax].
      apply Nat.leb_le in Hmin, Hmax.
      destruct (forallb _ (keys props)) eqn:Ek.
      * pose proof (proj1 (only_login_keys props) Ek) as Hk. split.
        -- intros H; inversion H. exists props, e, p. repeat split; auto.
        -- intros (p0 & e0 & w0 & E & He0 & _ & Hw0 & _ & _ & ->).
           inversion E; subst p0. congruence.
      * split; [discriminate |].
        intros (p0 & e0 & w0 & E & _ & _ & _ & _ & Hk & _).
        inversion E; subst p0. apply (proj2 (only_login_keys props)) in Hk. congruence.
    + split; [discriminate |].
      intros (p0 & e0 & w0 & E & _ & _ & Hw0 & [Hmin Hmax] & _).
      inversion E; subst p0.
      assert (Hsome : safeParse h (z_string [Min 6; Max 100])
                        (read (lookup "password" props)) = Some (VString w0)).
      { apply safeParse_string. exists w0. rewrite Hw0. repeat split.
        cbn [forallb check_string]. rewrite andb_true_r. apply andb_true_iff.
        split; apply Nat.leb_le; assumption. }
      congruence.
  - split.
    + destruct (safeParse h (z_string [Min 6; Max 100]) (read (lookup "password" props)));
        discriminate.
    + intros (p0 & e0 & w0 & E & He0 & Hm & _).
      inversion E; subst p0.
      assert (Hsome : safeParse h (z_string [Email]) (read (lookup "email" props))
                      = Some (VString e0)).
      { apply safeParse_string. exists e0. rewrite He0. repeat split.
        cbn [forallb check_string]. rewrite Hm. reflexivity. }
      congruence.
Qed.

(** C1. Validation of a submission with [LoginBody] succeeds exactly when the
    e-mail field is a string with the shape of an e-mail address, the password
    is a string of length at least 6 and at most 100, and there is no other
    field; on a submission that violates this the form runs no handler: no
    request is issued, nothing is done at all. *)
Theorem LoginBody_accepts_exactly_valid_submissions : forall h submitted,
  ((exists values, safeParse h LoginBody submitted = Some values) <->
   login_constraints h submitted) /\
  (~ login_constraints h submitted ->
   handleSubmit h (onSubmit h) submitted = (inr tt, []) /\
   fetch_count (trace (handleSubmit h (onSubmit h) submitted)) = 0).
Proof.
  intros h submitted.
  assert (Hiff : (exists values, safeParse h LoginBody submitted = Some values) <->
                 login_constraints h submitted).
  { unfold login_constraints. split.
    - intros [values H]. apply safeParse_LoginBody in H.
      destruct H as (props & e & p & H1 & H2 & H3 & H4 & H5 & H6 & _).
      exists props, e, p. repeat split; auto; apply H5.
    - intros (props & e & p & H1 & H2 & H3 & H4 & H5 & H6).
      exists (VObject [("email", VString e); ("password", VString p)]).
      apply safeParse_LoginBody. exists props, e, p. repeat split; auto; apply H5. }
  split; [exact Hiff |].
  intros Hnot. unfold handleSubmit, zodResolver.
  destruct (safeParse h LoginBody submitted) as [values |] eqn:E.
  - exfalso. apply Hnot, Hiff. eauto.
  - split; reflexivity.
Qed.

(** ** Submitting the form *)

Lemma JSON_stringify_login : forall print email_ password_,
  JSON_stringify print
    (VObject [("email", VString email_); ("password", VString password_)])
  = inr (Some (login_json email_ password_)).
Proof. reflexivity. Qed.

(** C6. Submitting the form with values that pass validation issues one
    request: [fetch] is called with the base URL followed by the endpoint
    [/api/auth/login], the method POST, and as body the JSON serialization of
    the object of the e-mail and the password. *)
Theorem submit_posts_login_body : forall h submitted values,
  zodResolver h LoginBody submitted = Some values ->
  exists email_ password_ rest,
    values = VObject [("email", VString email_); ("password", VString password_)] /\
    JSON_stringify (Number_toString h) values = inr (Some (login_json email_ password_)) /\
    trace (handleSubmit h (onSubmit h) submitted) =
      SetIsLoading true :: SetError None ::
      Fetch (API_BASE_URL h +++ "/api/auth/login")
        {| init_method := POST;
           init_headers := [("Content-Type", VString "application/json")];
           init_cache := None;
           init_credentials := None;
           init_body := Some (login_json email_ password_) |} :: rest /\
    fetch_count rest = 0.
Proof.
  intros h submitted values Hv.
  pose proof Hv as Hs. unfold zodResolver in Hs. apply safeParse_LoginBody in Hs.
  destruct Hs as (props & e & p & _ & _ & _ & _ & _ & _ & ->).
  destruct (onSubmit_unfold h (VObject [("email", VString e); ("password", VString p)]))
    as [r [Hr E]].
  exists e, p, (after_response h r ++ [SetIsLoading false]).
  split; [reflexivity |]. split; [reflexivity |].
  unfold handleSubmit. rewrite Hv, E. unfold trace at 1; cbn [snd].
  unfold api.post. rewrite apiRequest_trace_request.
  split; [reflexivity |].
  rewrite fetch_count_app, after_response_no_fetch. reflexivity.
Qed.

(** The case of [example_values], which the resolver accepts and returns. *)
Lemma submit_posts_login_body_witness :
  exists rest,
    trace (handleSubmit (host_answering (inr unauthorized))
             (onSubmit (host_answering (inr unauthorized))) example_values) =
      SetIsLoading true :: SetError None ::
      Fetch "http://localhost:8000/api/api/auth/login"
        {| init_method := POST;
           init_headers := [("Content-Type", VString "application/json")];
           init_cache := None;
           init_credentials := None;
           init_body := Some (login_json "staff@foodcourt.vn" "secret1") |} :: rest.
Proof.
  destruct (submit_posts_login_body (host_answering (inr unauthorized))
              example_values example_values eq_refl)
    as (e & p & rest & Hv & _ & Ht & _).
  inversion Hv; subst e p.
  exists rest. exact Ht.
Defined.

(** * Further properties *)

(** ** Induction on nested values, and serialization *)

Section value_nested_ind.

Variable P : value -> Prop.
Hypothesis P_undefined : P VUndefined.
Hypothesis P_null : P VNull.
Hypothesis P_boolean : forall b, P (VBoolean b).
Hypothesis P_number : forall n, P (VNumber n).
Hypothesis P_bigint : forall z, P (VBigInt z).
Hypothesis P_string : forall s, P (VString s).
Hypothesis P_array : forall l, Forall P l -> P (VArray l).
Hypothesis P_object : forall props, Forall (fun kv => P (snd kv)) props -> P (VObject props).


End value_nested_ind.










(** ** [apiRequest]: the request *)

Lemma apiRequest_outcome_of_fetch : forall h endpoint options url init,
  In (Fetch url init) (trace (apiRequest h endpoint options)) ->
  apiRequest h endpoint options =
  (inr (match fetch h url init with
        | inl t => caught_response t
        | inr response =>
            match shape_response response with
            | inl t => caught_response t
            | inr r => r
            end
        end), [Fetch url init]).
Proof.
  intros h endpoint options url init Hin.
  rewrite apiRequest_trace_request in Hin.
  rewrite apiRequest_unfold, apiRequest_try_unfold.
  destruct (build_request h options) as [t | init']; simpl in Hin; [contradiction |].
  destruct Hin as [Hin | []]. inversion Hin; subst.
  destruct (fetch h (API_BASE_URL h +++ endpoint) init) as [t | response];
    [reflexivity |].
  destruct (shape_response response); reflexivity.
Qed.

Lemma build_request_fields : forall h options init,
  build_request h options = inr init ->
  init_method init = match method options with Some m => m | None => GET end /\
  init_cache init = cache options /\
  init_credentials init = credentials options /\
  JSON_stringify (Number_toString h) (body options) = inr (init_body init).
Proof.
  intros h options init H. unfold build_request in H.
  destruct (body options) eqn:Eb.
  1: inversion H; subst; simpl; repeat split; reflexivity.
  all: destruct (JSON_stringify (Number_toString h) _) as [thrown_ | text_] eqn:Ej;
    [discriminate |];
    inversion H; subst; simpl; repeat split; reflexivity.
Qed.


(** X1. [apiRequest] never throws: for every host, endpoint and options it
    returns a response, which has data and no error, or an error and no
    data. *)
Theorem apiRequest_never_throws : forall h endpoint options,
  exists r,
    outcome (apiRequest h endpoint options) = inr r /\
    ((data r <> None /\ error r = None) \/ (data r = None /\ error r <> None)).
Proof.
  intros h endpoint options.
  destruct (apiRequest_returns h endpoint options) as [r Hr].
  exists r. split; [exact Hr |].
  exact (apiRequest_data_xor_error h endpoint options r Hr).
Qed.

Lemma shape_response_status : forall response r,
  shape_response response = inr r ->
  statusCode r = status response /\
  success_status (statusCode r) = ok response.
Proof.
  intros response r. unfold shape_response.
  destruct (is_json (content_type response)), (ok response) eqn:Eo;
    repeat break_match;
    intros H; inversion H; subst; simpl; split; try reflexivity; exact Eo.
Qed.

(** X2. The response of [apiRequest] has data exactly when its status code is
    in the range 200-299, and an error exactly when it is not: a caught
    exception gives 500, and otherwise the code is the HTTP status, with data
    only for an ok response. *)
Theorem data_iff_success_status : forall h endpoint options,
  exists r,
    outcome (apiRequest h endpoint options) = inr r /\
    (data r <> None <-> success_status (statusCode r) = true) /\
    (error r <> None <-> success_status (statusCode r) = false).
Proof.
  intros h endpoint options.
  assert (C : forall t,
             (data (caught_response t) <> None <->
              success_status (statusCode (caught_response t)) = true) /\
             (error (caught_response t) <> None <->
              success_status (statusCode (caught_response t)) = false)).
  { intros t. simpl. split; split; intros H; try reflexivity;
      try discriminate; try congruence. }
  rewrite apiRequest_unfold, apiRequest_try_unfold.
  destruct (build_request h options) as [t | init]; simpl.
  { exists (caught_response t). split; [reflexivity | apply C]. }
  destruct (fetch h (API_BASE_URL h +++ endpoint) init) as [t | response]; simpl.
  { exists (caught_response t). split; [reflexivity | apply C]. }
  destruct (shape_response response) as [t | r] eqn:E; simpl.
  { exists (caught_response t). split; [reflexivity | apply C]. }
  exists r. split; [reflexivity |].
  destruct (shape_response_status _ _ E) as [_ Hs].
  destruct (shape_response_one_of _ _ E) as [(Hd & He & Ho) | (Hd & He & Ho)];
    rewrite Hs, Ho, ?Hd, ?He; split; split; intros H;
    try reflexivity; try discriminate; try congruence; try assumption.
Qed.

(** X3. The error of the response is a string on every path but one: the
    response is not ok, its body is JSON, and the [message] of the body is
    truthy and not a string; the error is then that message itself. *)
Theorem error_is_a_string_unless_message_is_not : forall h endpoint options,
  exists r,
    outcome (apiRequest h endpoint options) = inr r /\
    forall e,
      error r = Some e ->
      is_string e = true \/
      exists init response responseData,
        fetch h (API_BASE_URL h +++ endpoint) init = inr response /\
        is_json (content_type response) = true /\
        ok response = false /\
        json response = inr responseData /\
        get_message responseData = inr e /\
        ToBoolean e = true /\
        is_string e = false.
Proof.
  intros h endpoint options.
  destruct (apiRequest_returns h endpoint options) as [r Hr].
  exists r. split; [exact Hr |].
  intros e He. exact (apiRequest_error_is_string h endpoint options r e Hr He).
Qed.




(** ** [apiRequest]: the response *)

(** X6. When no exception is caught, [apiRequest] made one request, [fetch]
    resolved with a response, and the status code returned is the HTTP status
    of that response. *)
Theorem status_code_is_http_status : forall h endpoint options r tr,
  apiRequest_try h endpoint options = (inr r, tr) ->
  exists init response,
    tr = [Fetch (API_BASE_URL h +++ endpoint) init] /\
    fetch h (API_BASE_URL h +++ endpoint) init = inr response /\
    statusCode r = status response /\
    apiRequest h endpoint options = (inr r, tr).
Proof.
  intros h endpoint options r tr E.
  pose proof (apiRequest_unfold h endpoint options) as Eu. rewrite E in Eu.
  rewrite apiRequest_try_unfold in E.
  destruct (build_request h options) as [t | init]; [discriminate |].
  destruct (fetch h (API_BASE_URL h +++ endpoint) init) as [t | response] eqn:Ef;
    [discriminate |].
  inversion E as [[Es Et]].
  subst tr. exists init, response.
  split; [reflexivity |]. split; [exact Ef |].
  split; [exact (proj1 (shape_response_status _ _ Es)) |].
  rewrite Es. exact Eu.
Qed.

(** A login answered 401 keeps its status. *)
Lemma status_code_is_http_status_witness :
  exists init response,
    fetch (host_answering (inr unauthorized))
      (API_BASE_URL (host_answering (inr unauthorized)) +++ "/api/auth/login") init
    = inr response /\
    status response = 401%Z.
Proof.
  destruct (status_code_is_http_status (host_answering (inr unauthorized))
              "/api/auth/login"
              (with_body example_values (with_method POST empty_options))
              {| data := None;
                 error := Some (VString "Invalid credentials");
                 statusCode := 401 |}
              _ eq_refl) as (init & response & _ & Hf & Hs & _).
  exists init, response. split; [exact Hf | symmetry; exact Hs].
Defined.

(** X7. On an ok response the data is the body as read: the value
    [response.json()] gives when the content type names JSON (be it [null]),
    the text of [response.text()] otherwise; there is no error and the status
    code is the HTTP status. *)
Theorem success_data_is_the_body : forall h endpoint options url init response,
  In (Fetch url init) (trace (apiRequest h endpoint options)) ->
  fetch h url init = inr response ->
  ok response = true ->
  (forall body_,
     is_json (content_type response) = true ->
     json response = inr body_ ->
     outcome (apiRequest h endpoint options)
     = inr {| data := Some body_; error := None; statusCode := status response |}) /\
  (forall text_,
     is_json (content_type response) = false ->
     text response = inr text_ ->
     outcome (apiRequest h endpoint options)
     = inr {| data := Some (VString text_); error := None;
              statusCode := status response |}).
Proof.
  intros h endpoint options url init response Hin Hf Ho.
  rewrite (apiRequest_outcome_of_fetch _ _ _ _ _ Hin), Hf.
  unfold shape_response, outcome. rewrite Ho.
  split; intros b Hj Hb; rewrite Hj, Hb; reflexivity.
Qed.

(** The login answered 200 with the tokens. *)
Lemma success_data_is_the_body_witness :
  exists body_,
    json login_ok = inr body_ /\
    outcome (apiRequest (host_answering (inr login_ok)) "/api/auth/login"
               (with_body example_values (with_method POST empty_options)))
    = inr {| data := Some body_; error := None; statusCode := 200 |}.
Proof.
  eexists. split; [reflexivity |].
  exact (proj1 (success_data_is_the_body
                  (host_answering (inr login_ok)) "/api/auth/login"
                  (with_body example_values (with_method POST empty_options))
                  _ _ login_ok (or_introl eq_refl) eq_refl eq_refl)
           _ eq_refl eq_refl).
Defined.

(** X8. A response that is not ok, declared as JSON, whose body is the JSON
    text [null]: reading [message] of [null] throws, so the response returned
    has status code 500, not the HTTP status, and the TypeError's message as
    its error. *)
Theorem null_error_body_is_reported_500 :
  forall h endpoint options url init response,
  In (Fetch url init) (trace (apiRequest h endpoint options)) ->
  fetch h url init = inr response ->
  ok response = false ->
  is_json (content_type response) = true ->
  json response = inr VNull ->
  outcome (apiRequest h endpoint options)
  = inr {| data := None; error := Some (VString msg_read_of_null); statusCode := 500 |}.
Proof.
  intros h endpoint options url init response Hin Hf Ho Hj Hb.
  rewrite (apiRequest_outcome_of_fetch _ _ _ _ _ Hin), Hf.
  unfold shape_response, outcome. rewrite Ho, Hj, Hb. reflexivity.
Qed.

(** A 404 with the body [null]. *)
Lemma null_error_body_is_reported_500_witness :
  status not_found_null = 404%Z /\
  outcome (apiRequest (host_answering (inr not_found_null)) "/orders/7" empty_options)
  = inr {| data := None; error := Some (VString msg_read_of_null); statusCode := 500 |}.
Proof.
  split; [reflexivity |].
  exact (null_error_body_is_reported_500
           (host_answering (inr not_found_null)) "/orders/7" empty_options
           _ _ not_found_null (or_introl eq_refl) eq_refl eq_refl eq_refl eq_refl).
Defined.

(** X9. A response that is not ok whose JSON body is an object: the error is
    the [message] of the body when that is truthy, and the text
    [An error occurred] when the body has no [message] or a falsy one (the
    empty string, [null], [false], zero); the status code is the HTTP
    status. *)
Theorem error_is_the_message_or_a_default :
  forall h endpoint options url init response props,
  In (Fetch url init) (trace (apiRequest h endpoint options)) ->
  fetch h url init = inr response ->
  ok response = false ->
  is_json (content_type response) = true ->
  json response = inr (VObject props) ->
  outcome (apiRequest h endpoint options)
  = inr {| data := None;
           error := Some (match lookup "message" props with
                          | Some message =>
                              if ToBoolean message then message
                              else VString "An error occurred"
                          | None => VString "An error occurred"
                          end);
           statusCode := status response |}.
Proof.
  intros h endpoint options url init response props Hin Hf Ho Hj Hb.
  rewrite (apiRequest_outcome_of_fetch _ _ _ _ _ Hin), Hf.
  unfold shape_response, outcome. rewrite Ho, Hj, Hb. simpl.
  destruct (lookup "message" props) as [m |]; reflexivity.
Qed.

(** A 503 whose body has no message. *)
Lemma error_is_the_message_or_a_default_witness :
  outcome (apiRequest (host_answering (inr unavailable_no_message)) "/orders" empty_options)
  = inr {| data := None; error := Some (VString "An error occurred"); statusCode := 503 |}.
Proof.
  exact (error_is_the_message_or_a_default
           (host_answering (inr unavailable_no_message)) "/orders" empty_options
           _ _ unavailable_no_message _ (or_introl eq_refl) eq_refl eq_refl eq_refl eq_refl).
Defined.

(** X10. A response that is not ok and whose content type does not name JSON
    (or is absent): the error is [Request failed with status N], N the HTTP
    status in decimal, which is also the status code; the body is not read,
    so this holds whatever [json()] and [text()] would do. *)
Theorem non_json_failure_reports_status :
  forall h endpoint options url init response,
  In (Fetch url init) (trace (apiRequest h endpoint options)) ->
  fetch h url init = inr response ->
  ok response = false ->
  is_json (content_type response) = false ->
  outcome (apiRequest h endpoint options)
  = inr {| data := None;
           error := Some (VString ("Request failed with status "
                                   +++ Z_toString (status response)));
           statusCode := status response |}.
Proof.
  intros h endpoint options url init response Hin Hf Ho Hj.
  rewrite (apiRequest_outcome_of_fetch _ _ _ _ _ Hin), Hf.
  unfold shape_response, outcome. rewrite Ho, Hj. reflexivity.
Qed.

(** A 502 with an HTML page that cannot be read. *)
Lemma non_json_failure_reports_status_witness :
  outcome (apiRequest (host_answering (inr bad_gateway)) "/orders" empty_options)
  = inr {| data := None;
           error := Some (VString "Request failed with status 502");
           statusCode := 502 |}.
Proof.
  exact (non_json_failure_reports_status
           (host_answering (inr bad_gateway)) "/orders" empty_options
           _ _ bad_gateway (or_introl eq_refl) eq_refl eq_refl eq_refl).
Defined.

(** ** The [api] methods and the typed client *)

Lemma fetch_fields : forall h endpoint options url init,
  In (Fetch url init) (trace (apiRequest h endpoint options)) ->
  url = API_BASE_URL h +++ endpoint /\
  init_method init = match method options with Some m => m | None => GET end /\
  JSON_stringify (Number_toString h) (body options) = inr (init_body init).
Proof.
  intros h endpoint options url init Hin.
  destruct (fetch_in_trace _ _ _ _ _ Hin) as [Hu Hb].
  destruct (build_request_fields _ _ _ Hb) as (Hm & _ & _ & Hj).
  repeat split; assumption.
Qed.

(** X11. Each method of [api] issues its request with its own HTTP method,
    whatever [method] the options carry: GET for [api.get], POST for
    [api.post], PUT for [api.put], PATCH for [api.patch], DELETE for
    [api.delete]. *)
Theorem api_methods_fix_the_method : forall h endpoint data_ options url init,
  (In (Fetch url init) (trace (api.get h endpoint options)) -> init_method init = GET) /\
  (In (Fetch url init) (trace (api.post h endpoint data_ options)) ->
   init_method init = POST) /\
  (In (Fetch url init) (trace (api.put h endpoint data_ options)) ->
   init_method init = PUT) /\
  (In (Fetch url init) (trace (api.patch h endpoint data_ options)) ->
   init_method init = PATCH) /\
  (In (Fetch url init) (trace (api.delete h endpoint options)) ->
   init_method init = DELETE).
Proof.
  intros h endpoint data_ options url init.
  unfold api.get, api.post, api.put, api.patch, api.delete.
  split; [| split; [| split; [| split]]]; intros Hin;
    destruct (fetch_fields _ _ _ _ _ Hin) as (_ & Hm & _); exact Hm.
Qed.

(** X12. The body [api.post], [api.put] and [api.patch] send is the JSON text
    of their data argument and never the body of the options: in particular
    no body is sent when the data is [undefined], even if the options carry
    one.  [api.delete] forwards the body of the options. *)
Theorem data_argument_is_the_body : forall h endpoint data_ options url init,
  (In (Fetch url init) (trace (api.post h endpoint data_ options)) ->
   JSON_stringify (Number_toString h) data_ = inr (init_body init) /\
   (data_ = VUndefined -> init_body init = None)) /\
  (In (Fetch url init) (trace (api.put h endpoint data_ options)) ->
   JSON_stringify (Number_toString h) data_ = inr (init_body init) /\
   (data_ = VUndefined -> init_body init = None)) /\
  (In (Fetch url init) (trace (api.patch h endpoint data_ options)) ->
   JSON_stringify (Number_toString h) data_ = inr (init_body init) /\
   (data_ = VUndefined -> init_body init = None)) /\
  (In (Fetch url init) (trace (api.delete h endpoint options)) ->
   JSON_stringify (Number_toString h) (body (spread_options options))
   = inr (init_body init)).
Proof.
  intros h endpoint data_ options url init.
  unfold api.post, api.put, api.patch, api.delete.
  split; [| split; [| split]]; intros Hin;
    destruct (fetch_fields _ _ _ _ _ Hin) as (_ & _ & Hj); simpl in Hj;
    first [ exact Hj
          | split; [exact Hj | intros Hd; rewrite Hd in Hj; inversion Hj; reflexivity] ].
Qed.

(** Options that carry a body of their own. *)
Definition options_with_body : RequestOptions :=
  {| method := Some GET;
     headers := None;
     body := VObject [("stale", VBoolean true)];
     cache := Some NoStore;
     credentials := Some Include |}.

Example post_without_data_sends_no_body :
  trace (api.post (host_answering (inr unauthorized)) "/orders" VUndefined
           (Some options_with_body))
  = [Fetch "http://localhost:8000/api/orders"
       {| init_method := POST;
          init_headers := [("Content-Type", VString "application/json")];
          init_cache := Some NoStore;
          init_credentials := Some Include;
          init_body := None |}].
Proof. reflexivity. Qed.

(** X13. The requests of the client of [createApiClient]: [getById],
    [update] and [remove] go to the endpoint followed by a slash and the id
    as it prints (a string id verbatim), with GET, PUT and DELETE; [create]
    POSTs to the endpoint itself; [create] and [update] send the JSON text of
    their data. *)
Theorem client_requests : forall h endpoint schema id data_ options url init,
  (In (Fetch url init) (trace (getById (createApiClient h endpoint schema) id options)) ->
   url = API_BASE_URL h +++ endpoint +++ "/" +++ id_toString h id /\
   init_method init = GET) /\
  (In (Fetch url init) (trace (create (createApiClient h endpoint schema) data_ options)) ->
   url = API_BASE_URL h +++ endpoint /\
   init_method init = POST /\
   JSON_stringify (Number_toString h) data_ = inr (init_body init)) /\
  (In (Fetch url init)
      (trace (update (createApiClient h endpoint schema) id data_ options)) ->
   url = API_BASE_URL h +++ endpoint +++ "/" +++ id_toString h id /\
   init_method init = PUT /\
   JSON_stringify (Number_toString h) data_ = inr (init_body init)) /\
  (In (Fetch url init) (trace (remove (createApiClient h endpoint schema) id options)) ->
   url = API_BASE_URL h +++ endpoint +++ "/" +++ id_toString h id /\
   init_method init = DELETE).
Proof.
  intros h endpoint schema id data_ options url init.
  unfold createApiClient, getById, create, update, remove,
    api.get, api.post, api.put, api.delete.
  split; [| split; [| split]]; intros Hin;
    destruct (fetch_fields _ _ _ _ _ Hin) as (Hu & Hm & Hj); simpl in Hj;
    repeat split; assumption.
Qed.

Example update_request :
  trace (update (createApiClient (host_answering (inr unauthorized)) "/stalls"
                   (fun v => inr v))
           (inr 7%float) (VObject [("name", VString "Pho 24")]) None)
  = [Fetch "http://localhost:8000/api/stalls/7"
       {| init_method := PUT;
          init_headers := [("Content-Type", VString "application/json")];
          init_cache := None;
          init_credentials := None;
          init_body := Some ("{" +++ QuoteJSONString "name" +++ ":"
                                 +++ QuoteJSONString "Pho 24" +++ "}") |}].
Proof. reflexivity. Qed.

(** ** The schemas of auth.schema.ts *)

Section ZodType_nested_ind.

Variable P : ZodType -> Prop.
Hypothesis P_string : forall checks, P (z_string checks).
Hypothesis P_object :
  forall shape unknownKeys,
    Forall (fun ks => P (snd ks)) shape -> P (z_object shape unknownKeys).

Fixpoint ZodType_nested_ind (schema : ZodType) : P schema :=
  match schema with
  | z_string checks => P_string checks
  | z_object shape unknownKeys =>
      P_object shape unknownKeys
        ((fix all (l : list (string * ZodType)) : Forall (fun ks => P (snd ks)) l :=
            match l with
            | [] => Forall_nil _
            | ks :: rest => Forall_cons ks (ZodType_nested_ind (snd ks)) (all rest)
            end) shape)
  end.

End ZodType_nested_ind.

Lemma safeParse_object : forall h shape unknownKeys input,
  safeParse h (z_object shape unknownKeys) input =
  match input with
  | VObject props =>
      match parse_fields h props shape with
      | Some parsed =>
          match unknownKeys with
          | strip => Some (VObject parsed)
          | strict =>
              if forallb (in_shape shape) (keys props) then Some (VObject parsed)
              else None
          end
      | None => None
      end
  | _ => None
  end.
Proof. intros h shape unknownKeys input. destruct input; reflexivity. Qed.

Lemma parse_fields_cons : forall h props k s rest,
  parse_fields h props ((k, s) :: rest) =
  match safeParse h s (read (lookup k props)), parse_fields h props rest with
  | Some v, Some vs => Some ((k, v) :: vs)
  | _, _ => None
  end.
Proof. reflexivity. Qed.

Lemma well_formed_object : forall shape unknownKeys,
  well_formed (z_object shape unknownKeys) =
  distinct (keys shape) && forallb (fun ks => well_formed (snd ks)) shape.
Proof.
  intros shape unknownKeys.
  change (well_formed (z_object shape unknownKeys))
    with (distinct (keys shape) &&
          (fix all (l : list (string * ZodType)) : bool :=
             match l with
             | [] => true
             | (_, s) :: rest => well_formed s && all rest
             end) shape).
  f_equal. induction shape as [| [k s] shape IH]; simpl; [reflexivity |].
  rewrite IH. reflexivity.
Qed.

(** The parsed fields carry the keys of the shape, in its order. *)
Lemma parse_fields_keys : forall h props shape parsed,
  parse_fields h props shape = Some parsed -> keys parsed = keys shape.
Proof.
  intros h props. induction shape as [| [k s] shape IH]; intros parsed H.
  - inversion H. reflexivity.
  - rewrite parse_fields_cons in H.
    destruct (safeParse h s (read (lookup k props))) as [v |]; [| discriminate].
    destruct (parse_fields h props shape) as [vs |]; [| discriminate].
    inversion H; subst. simpl. f_equal. apply IH. reflexivity.
Qed.

Lemma lookup_distinct : forall (A : Type) (l : list (string * A)) (k : string) (v : A),
  distinct (keys l) = true -> In (k, v) l -> lookup k l = Some v.
Proof.
  induction l as [| [k0 v0] l IH]; intros k v Hd Hin; simpl in *; [contradiction |].
  apply andb_true_iff in Hd. destruct Hd as [Hn Hd].
  destruct Hin as [Hin | Hin].
  - inversion Hin; subst. rewrite String.eqb_refl. reflexivity.
  - destruct (String.eqb k0 k) eqn:E.
    + apply String.eqb_eq in E; subst k0. exfalso.
      apply negb_true_iff in Hn.
      assert (Hex : existsb (String.eqb k) (keys l) = true).
      { apply existsb_exists. exists k. split.
        - unfold keys. apply in_map_iff. exists (k, v). split; [reflexivity | exact Hin].
        - apply String.eqb_refl. }
      congruence.
    + apply IH; assumption.
Qed.

(** Parsing again, against properties that give each parsed key its parsed
    value, returns the same fields, provided each field schema returns its
    own output unchanged. *)
Lemma parse_fields_again : forall h props whole shape parsed,
  Forall (fun ks => forall v out,
            safeParse h (snd ks) v = Some out -> safeParse h (snd ks) out = Some out)
         shape ->
  parse_fields h props shape = Some parsed ->
  (forall k v, In (k, v) parsed -> lookup k whole = Some v) ->
  parse_fields h whole shape = Some parsed.
Proof.
  intros h props whole. induction shape as [| [k s] shape IH]; intros parsed HF H Hl.
  - inversion H. reflexivity.
  - rewrite parse_fields_cons in H. rewrite parse_fields_cons.
    destruct (safeParse h s (read (lookup k props))) as [v |] eqn:Ev; [| discriminate].
    destruct (parse_fields h props shape) as [vs |] eqn:Evs; [| discriminate].
    inversion H; subst. inversion HF as [| ? ? Hs HF']; subst.
    rewrite (Hl k v (or_introl eq_refl)). simpl in Hs |- *.
    rewrite (Hs _ _ Ev).
    rewrite (IH vs HF' eq_refl); [reflexivity |].
    intros k' v' Hin. apply Hl. right. exact Hin.
Qed.

Lemma keys_in_shape : forall (A : Type) (shape : list (string * A)),
  forallb (in_shape shape) (keys shape) = true.
Proof.
  intros A shape. apply forallb_forall. intros k Hk.
  unfold in_shape. apply existsb_exists. exists k. split; [exact Hk |].
  apply String.eqb_refl.
Qed.

(** X14. Validation is idempotent: for a schema whose shapes name each key
    once, the data [safeParse] returns is accepted again by the same schema
    and returned unchanged (so the values the resolver hands to the form
    handler are themselves valid). *)
Theorem safeParse_idempotent : forall h schema input out,
  well_formed schema = true ->
  safeParse h schema input = Some out ->
  safeParse h schema out = Some out.
Proof.
  intros h schema. induction schema as [checks | shape unknownKeys IH]
    using ZodType_nested_ind; intros input out Hwf H.
  - apply safeParse_string in H. destruct H as (s & _ & -> & Hc).
    apply safeParse_string. exists s. repeat split. exact Hc.
  - rewrite well_formed_object in Hwf. apply andb_true_iff in Hwf.
    destruct Hwf as [Hd Hall].
    rewrite safeParse_object in H.
    destruct input as [| | | | | | | props]; try discriminate.
    destruct (parse_fields h props shape) as [parsed |] eqn:Ep; [| discriminate].
    assert (Ho : out = VObject parsed).
    { destruct unknownKeys; [congruence |].
      destruct (forallb (in_shape shape) (keys props)); congruence. }
    subst out. clear H.
    pose proof (parse_fields_keys _ _ _ _ Ep) as Hk.
    assert (HF : Forall (fun ks => forall v out,
                           safeParse h (snd ks) v = Some out ->
                           safeParse h (snd ks) out = Some out) shape).
    { rewrite forallb_forall in Hall. rewrite Forall_forall in IH.
      apply Forall_forall. intros ks Hin v out Hv.
      exact (IH ks Hin v out (Hall ks Hin) Hv). }
    assert (Ea : parse_fields h parsed shape = Some parsed).
    { apply (parse_fields_again h props parsed shape parsed HF Ep).
      intros k v Hin. apply lookup_distinct; [rewrite Hk; exact Hd | exact Hin]. }
    rewrite safeParse_object, Ea.
    destruct unknownKeys; [reflexivity |].
    rewrite Hk, keys_in_shape. reflexivity.
Qed.

(** The login values are accepted again. *)
Lemma safeParse_idempotent_witness :
  safeParse (host_answering (inr unauthorized)) LoginBody example_values
  = Some example_values.
Proof.
  exact (safeParse_idempotent (host_answering (inr unauthorized)) LoginBody
           (VObject [("password", VString "secret1");
                     ("email", VString "staff@foodcourt.vn")])
           example_values eq_refl eq_refl).
Defined.

Lemma parse_string_field : forall h k (props : list (string * value)) v,
  safeParse h (z_string []) (read (lookup k props)) = Some v <->
  exists s, lookup k props = Some (VString s) /\ v = VString s.
Proof.
  intros h k props v. rewrite safeParse_string. split.
  - intros (s & Hr & -> & _). exists s. split; [| reflexivity].
    destruct (lookup k props); simpl in Hr; [congruence | discriminate].
  - intros (s & Hl & ->). exists s. rewrite Hl. repeat split.
Qed.

(** X15. [RefreshTokenBody] accepts exactly the objects whose only key is
    [refreshToken] and whose value there is a string, any string, the empty
    one included; it returns that one field.  [LogoutBody] validates the
    same way. *)
Theorem refresh_and_logout_bodies : forall h input out,
  (safeParse h RefreshTokenBody input = Some out <->
   exists props token,
     input = VObject props /\
     lookup "refreshToken" props = Some (VString token) /\
     (forall k, In k (keys props) -> k = "refreshToken") /\
     out = VObject [("refreshToken", VString token)]) /\
  safeParse h LogoutBody input = safeParse h RefreshTokenBody input.
Proof.
  intros h input out. split; [| reflexivity].
  unfold RefreshTokenBody. rewrite safeParse_object.
  destruct input as [| | | | | | | props];
    try (split; [discriminate | intros (p0 & t0 & E & _); discriminate]).
  rewrite parse_fields_cons.
  change (parse_fields h props []) with (Some (@nil (string * value))).
  assert (Hk : forallb (in_shape [("refreshToken", z_string [])]) (keys props) = true <->
               (forall k, In k (keys props) -> k = "refreshToken")).
  { rewrite forallb_forall. unfold in_shape; simpl.
    split; intros H k Hin; specialize (H k Hin).
    - rewrite orb_false_r in H. apply String.eqb_eq in H. exact H.
    - rewrite orb_false_r. apply String.eqb_eq. exact H. }
  destruct (safeParse h (z_string []) (read (lookup "refreshToken" props)))
    as [v |] eqn:Ev.
  - apply parse_string_field in Ev. destruct Ev as (token & Hl & ->).
    destruct (forallb (in_shape [("refreshToken", z_string [])]) (keys props)) eqn:Ef.
    + split.
      * intros H; inversion H. exists props, token.
        repeat split; auto. apply Hk. reflexivity.
      * intros (p0 & t0 & E & Hl0 & _ & ->). inversion E; subst p0.
        rewrite Hl in Hl0. inversion Hl0. reflexivity.
    + split; [discriminate |].
      intros (p0 & t0 & E & _ & Hall & _). inversion E; subst p0.
      apply Hk in Hall. congruence.
  - split; [discriminate |].
    intros (p0 & t0 & E & Hl0 & _). inversion E; subst p0.
    assert (Hs : safeParse h (z_string []) (read (lookup "refreshToken" props))
                 = Some (VString t0)).
    { apply parse_string_field. exists t0. split; [exact Hl0 | reflexivity]. }
    congruence.
Qed.

Example empty_refresh_token_accepted :
  safeParse (host_answering (inr unauthorized)) LogoutBody
    (VObject [("refreshToken", VString EmptyString)])
  = Some (VObject [("refreshToken", VString EmptyString)]).
Proof. reflexivity. Qed.

(** X16. [RefreshTokenResponse] accepts exactly the objects with a string
    [message] and an object [data] whose [accessToken] and [refreshToken] are
    strings; other keys, at either level, are allowed and dropped: the data
    returned holds these fields and nothing else. *)
Theorem RefreshTokenResponse_strips_unknown_keys : forall h input out,
  safeParse h RefreshTokenResponse input = Some out <->
  exists props dprops access refresh message,
    input = VObject props /\
    lookup "data" props = Some (VObject dprops) /\
    lookup "accessToken" dprops = Some (VString access) /\
    lookup "refreshToken" dprops = Some (VString refresh) /\
    lookup "message" props = Some (VString message) /\
    out = VObject [("data", VObject [("accessToken", VString access);
                                     ("refreshToken", VString refresh)]);
                   ("message", VString message)].
Proof.
  intros h input out. unfold RefreshTokenResponse. split.
  - intros H. rewrite safeParse_object in H.
    destruct input as [| | | | | | | props]; try discriminate.
    rewrite !parse_fields_cons in H.
    change (parse_fields h props []) with (Some (@nil (string * value))) in H.
    destruct (safeParse h
                (z_object [("accessToken", z_string []); ("refreshToken", z_string [])]
                   strip)
                (read (lookup "data" props))) as [d |] eqn:Ed; [| discriminate].
    destruct (safeParse h (z_string []) (read (lookup "message" props)))
      as [m |] eqn:Em; [| discriminate].
    inversion H; subst out. clear H.
    apply parse_string_field in Em. destruct Em as (message & Hm & ->).
    rewrite safeParse_object in Ed.
    destruct (lookup "data" props) as [[| | | | | | | dprops] |] eqn:El;
      cbn [read] in Ed; try discriminate.
    rewrite !parse_fields_cons in Ed.
    change (parse_fields h dprops []) with (Some (@nil (string * value))) in Ed.
    destruct (safeParse h (z_string []) (read (lookup "accessToken" dprops)))
      as [a |] eqn:Ea; [| discriminate].
    destruct (safeParse h (z_string []) (read (lookup "refreshToken" dprops)))
      as [r |] eqn:Er; [| discriminate].
    inversion Ed; subst d. clear Ed.
    apply parse_string_field in Ea. destruct Ea as (access & Ha & ->).
    apply parse_string_field in Er. destruct Er as (refresh & Hr & ->).
    exists props, dprops, access, refresh, message. repeat split; assumption.
  - intros (props & dprops & access & refresh & message & -> & Hd & Ha & Hr & Hm & ->).
    rewrite safeParse_object, !parse_fields_cons.
    change (parse_fields h props []) with (Some (@nil (string * value))).
    rewrite Hd, Hm. cbn [read].
    rewrite safeParse_object, !parse_fields_cons.
    change (parse_fields h dprops []) with (Some (@nil (string * value))).
    rewrite Ha, Hr. reflexivity.
Qed.

Example refresh_response_is_stripped :
  safeParse (host_answering (inr unauthorized)) RefreshTokenResponse
    (VObject [("message", VString "Refreshed");
              ("data", VObject [("refreshToken", VString "rt2");
                                ("expiresIn", VNumber 900);
                                ("accessToken", VString "at2")]);
              ("requestId", VString "41")])
  = Some (VObject [("data", VObject [("accessToken", VString "at2");
                                     ("refreshToken", VString "rt2")]);
                   ("message", VString "Refreshed")]).
Proof. reflexivity. Qed.

(** ** The login form, continued *)

Lemma apiRequest_only_fetches : forall h endpoint options e,
  In e (trace (apiRequest h endpoint options)) -> is_Fetch e = true.
Proof.
  intros h endpoint options e. rewrite apiRequest_trace_request.
  destruct (build_request h options); simpl; [tauto |].
  intros [<- | []]. reflexivity.
Qed.

Lemma onSubmit_fetch_is_the_login_request : forall h values url init,
  In (Fetch url init) (trace (onSubmit h values)) ->
  In (Fetch url init)
     (trace (apiRequest h "/api/auth/login"
               (with_body values (with_method POST empty_options)))).
Proof.
  intros h values url init Hin.
  destruct (onSubmit_unfold h values) as [r [_ E]].
  rewrite E in Hin. unfold trace at 1 in Hin; cbn [snd] in Hin.
  apply in_app_or in Hin. destruct Hin as [Hin | Hin].
  { simpl in Hin. destruct Hin as [Hin | [Hin | []]]; discriminate Hin. }
  apply in_app_or in Hin. destruct Hin as [Hin | Hin]; [exact Hin |].
  exfalso. apply in_app_or in Hin. destruct Hin as [Hin | Hin].
  - unfold after_response in Hin.
    destruct (ToBoolean (read (data r))); simpl in Hin;
      repeat (destruct Hin as [Hin | Hin]; [discriminate Hin |]); exact Hin.
  - simpl in Hin. destruct Hin as [Hin | []]. discriminate Hin.
Qed.

(** X17. [onSubmit] navigates exactly when the response has truthy data: the
    only navigation it ever performs is [router.push('/home')], and it
    performs it if and only if the data is truthy; the state then ends with no
    error, no banner and the loading flag off, whatever it was before. *)
Theorem navigation_iff_truthy_data : forall h values,
  exists r,
    outcome (api.post h "/api/auth/login" values None) = inr r /\
    (forall href,
       In (RouterPush href) (trace (onSubmit h values)) <->
       href = "/home" /\ ToBoolean (read (data r)) = true) /\
    (ToBoolean (read (data r)) = true ->
     forall st,
       State.error (State.run st (trace (onSubmit h values))) = None /\
       error_banner (State.run st (trace (onSubmit h values))) = None /\
       State.isLoading (State.run st (trace (onSubmit h values))) = false).
Proof.
  intros h values.
  destruct (onSubmit_unfold h values) as [r [Hr E]].
  assert (Et : trace (onSubmit h values) =
               [SetIsLoading true; SetError None]
                 ++ trace (api.post h "/api/auth/login" values None)
                 ++ after_response h r ++ [SetIsLoading false]).
  { rewrite E. reflexivity. }
  exists r. split; [exact Hr |]. rewrite Et. clear E Et.
  split.
  - intros href. split.
    + intros Hin. apply in_app_or in Hin. destruct Hin as [Hin | Hin].
      { simpl in Hin. destruct Hin as [Hin | [Hin | []]]; discriminate Hin. }
      apply in_app_or in Hin. destruct Hin as [Hin | Hin].
      { unfold api.post in Hin. apply apiRequest_only_fetches in Hin. discriminate Hin. }
      apply in_app_or in Hin. destruct Hin as [Hin | Hin].
      * unfold after_response in Hin.
        destruct (ToBoolean (read (data r))); simpl in Hin.
        -- destruct Hin as [Hin | []]. inversion Hin. split; reflexivity.
        -- destruct Hin as [Hin | [Hin | []]]; discriminate Hin.
      * simpl in Hin. destruct Hin as [Hin | []]. discriminate Hin.
    + intros [-> Hd]. apply in_or_app. right. apply in_or_app. right.
      apply in_or_app. left. unfold after_response. rewrite Hd. left. reflexivity.
  - intros Hd st. rewrite !run_app. unfold api.post.
    rewrite (proj2 (apiRequest_no_setter _ _ _)).
    unfold after_response. rewrite Hd. repeat split.
Qed.

(** X18. When the response has no truthy data and its error is a string or
    absent, as [ApiResponse] declares it, the form ends with a message that is
    not empty, which is the error string or, when there is none or it is
    empty, [Login failed]; the banner shows that message. *)
Theorem string_error_is_rendered : forall h values r st,
  outcome (api.post h "/api/auth/login" values None) = inr r ->
  ToBoolean (read (data r)) = false ->
  (error r = None \/ exists s, error r = Some (VString s)) ->
  exists message,
    message <> EmptyString /\
    (error r = Some (VString message) \/ message = "Login failed") /\
    State.error (State.run st (trace (onSubmit h values))) = Some message /\
    error_banner (State.run st (trace (onSubmit h values))) = Some message.
Proof.
  intros h values r st Hr Hd He.
  exact (onSubmit_renders_string_error h values r st Hr Hd He).
Qed.

(** The login answered 401 with a message. *)
Lemma string_error_is_rendered_witness :
  exists message,
    message <> EmptyString /\
    error_banner
      (State.run State.initial
         (trace (onSubmit (host_answering (inr unauthorized)) example_values)))
    = Some message.
Proof.
  destruct (string_error_is_rendered (host_answering (inr unauthorized)) example_values
              {| data := None;
                 error := Some (VString "Invalid credentials");
                 statusCode := 401 |}
              State.initial eq_refl eq_refl
              (or_intror (ex_intro _ "Invalid credentials" eq_refl)))
    as (message & Hne & _ & _ & Hb).
  exists message. split; assumption.
Defined.

(** X19. An ok response with falsy data is handled as a failed login: when
    the login is answered with a status in 200-299 and an empty text body, or
    with a JSON body that is falsy ([null], [false], zero, the empty
    string), the form does not navigate and shows [Login failed]. *)
Theorem falsy_success_is_a_failed_login : forall h values url init response st,
  In (Fetch url init) (trace (onSubmit h values)) ->
  fetch h url init = inr response ->
  ok response = true ->
  (is_json (content_type response) = false /\ text response = inr EmptyString) \/
  (is_json (content_type response) = true /\
   exists body_, json response = inr body_ /\ ToBoolean body_ = false) ->
  error_banner (State.run st (trace (onSubmit h values))) = Some "Login failed" /\
  existsb is_RouterPush (trace (onSubmit h values)) = false.
Proof.
  intros h values url init response st Hin Hf Ho Hbody.
  apply onSubmit_fetch_is_the_login_request in Hin.
  pose proof (apiRequest_outcome_of_fetch _ _ _ _ _ Hin) as Ea.
  rewrite Hf in Ea.
  assert (Hr : exists d,
             ToBoolean d = false /\
             api.post h "/api/auth/login" values None
             = (inr {| data := Some d; error := None; statusCode := status response |},
                [Fetch url init])).
  { unfold api.post. change (spread_options None) with empty_options. rewrite Ea.
    unfold shape_response. rewrite Ho.
    destruct Hbody as [[Hj Ht] | [Hj (b & Hb & Hfalsy)]]; rewrite Hj.
    - rewrite Ht. exists (VString EmptyString). split; reflexivity.
    - rewrite Hb. exists b. split; [exact Hfalsy | reflexivity]. }
  destruct Hr as (d & Hd & Ep).
  assert (Ho' : outcome (api.post h "/api/auth/login" values None)
                = inr {| data := Some d; error := None;
                         statusCode := status response |}).
  { rewrite Ep. reflexivity. }
  destruct (onSubmit_sets_error h values _ st Ho' Hd) as [_ Hb].
  split.
  - rewrite Hb. reflexivity.
  - destruct (onSubmit_unfold h values) as [r' [Hr' E]].
    rewrite Ho' in Hr'. inversion Hr'; subst r'.
    rewrite E. unfold trace at 1; cbn [snd]. rewrite Ep. unfold trace; cbn [snd].
    unfold after_response. cbn [data read]. rewrite Hd. reflexivity.
Qed.

(** The login answered 204 No Content. *)
Lemma falsy_success_is_a_failed_login_witness :
  ok no_content = true /\
  error_banner
    (State.run State.initial
       (trace (onSubmit (host_answering (inr no_content)) example_values)))
  = Some "Login failed".
Proof.
  split; [reflexivity |].
  exact (proj1 (falsy_success_is_a_failed_login
                  (host_answering (inr no_content)) example_values
                  _ _ no_content State.initial
                  (or_intror (or_intror (or_introl eq_refl)))
                  eq_refl eq_refl (or_introl (conj eq_refl eq_refl)))).
Defined.

(** X20. When [fetch] rejects, the banner shows the message of the rejection
    if it is an [Error] with a message, [Login failed] if its message is
    empty, and [Network error] if what was thrown is not an [Error]. *)
Theorem rejected_fetch_is_shown : forall h values url init rejection st,
  In (Fetch url init) (trace (onSubmit h values)) ->
  fetch h url init = inl rejection ->
  error_banner (State.run st (trace (onSubmit h values))) =
  Some (match rejection with
        | ErrorObject message =>
            if String.eqb message EmptyString then "Login failed" else message
        | NonError _ => "Network error"
        end).
Proof.
  intros h values url init rejection st Hin Hf.
  apply onSubmit_fetch_is_the_login_request in Hin.
  pose proof (apiRequest_outcome_of_fetch _ _ _ _ _ Hin) as Ea.
  rewrite Hf in Ea.
  assert (Ho : outcome (api.post h "/api/auth/login" values None)
               = inr (caught_response rejection)).
  { unfold api.post. change (spread_options None) with empty_options.
    rewrite Ea. reflexivity. }
  destruct (onSubmit_sets_error h values _ st Ho eq_refl) as [_ Hb].
  rewrite Hb. unfold failure_message, caught_response; cbn [error read].
  destruct rejection as [[| c m] | v]; reflexivity.
Qed.

(** The network is down. *)
Lemma rejected_fetch_is_shown_witness :
  error_banner
    (State.run State.initial
       (trace (onSubmit (host_answering (inl (ErrorObject "Failed to fetch")))
                 example_values)))
  = Some "Failed to fetch".
Proof.
  exact (rejected_fetch_is_shown
           (host_answering (inl (ErrorObject "Failed to fetch"))) example_values
           _ _ (ErrorObject "Failed to fetch") State.initial
           (or_intror (or_intror (or_introl eq_refl))) eq_refl).
Defined.

(** X21. [handleGoogleLogin] logs nobody in: it calls [fetch] never and
    navigates nowhere; from any state it leaves the loading flag off and the
    error cleared, so a message shown by an earlier failed login disappears,
    and it does not touch [showPassword]. *)
Theorem handleGoogleLogin_only_clears : forall st,
  outcome handleGoogleLogin = inr tt /\
  fetch_count (trace handleGoogleLogin) = 0 /\
  existsb is_RouterPush (trace handleGoogleLogin) = false /\
  State.run st (trace handleGoogleLogin) =
  {| State.isLoading := false;
     State.error := None;
     State.showPassword := State.showPassword st |} /\
  error_banner (State.run st (trace handleGoogleLogin)) = None.
Proof. intros st. repeat split. Qed.

(** ** The headers, continued *)

Lemma lookup_map_VString : forall (k : string) (fields : list (string * string)),
  lookup k (map (fun kv => (fst kv, VString (snd kv))) fields) =
  match lookup k fields with
  | Some v => Some (VString v)
  | None => None
  end.
Proof.
  induction fields as [| [k' v'] fields IH]; simpl; [reflexivity |].
  destruct (String.eqb k' k); [reflexivity | exact IH].
Qed.

Lemma keys_set_property : forall (A : Type) (k k' : string) (v : A) (o : list (string * A)),
  In k (keys (set_property k' v o)) -> k = k' \/ In k (keys o).
Proof.
  induction o as [| [k0 v0] o IH]; simpl.
  - intros [H | []]. left. symmetry. exact H.
  - destruct (String.eqb k0 k') eqn:E; simpl.
    + intros [H | H]; right; [left | right]; assumption.
    + intros [H | H]; [right; left; exact H |].
      destruct (IH H) as [Hk | Hk]; [left | right; right]; assumption.
Qed.

Lemma keys_spread : forall (A : Type) (k : string) (source target : list (string * A)),
  In k (keys (spread target source)) -> In k (keys target) \/ In k (keys source).
Proof.
  unfold spread. induction source as [| [k' v'] source IH]; intros target H; simpl in *.
  - left. exact H.
  - destruct (IH _ H) as [Hk | Hk].
    + destruct (keys_set_property _ _ _ _ _ Hk) as [-> | Hk'].
      * right. left. reflexivity.
      * left. exact Hk'.
    + right. right. exact Hk.
Qed.

Lemma keys_indexed : forall (l : list value) (i : nat) (k : string),
  In k (keys (indexed i l)) -> exists j, k = Z_toString (Z.of_nat j).
Proof.
  induction l as [| x l IH]; intros i k H; simpl in H; [contradiction |].
  destruct H as [H | H].
  - exists i. symmetry. exact H.
  - exact (IH _ _ H).
Qed.

(** Options with two headers of the caller. *)
Definition bearer_options : RequestOptions :=
  {| method := None;
     headers := Some (HeadersRecord [("Authorization", "Bearer at");
                                     ("Accept-Language", "vi")]);
     body := VUndefined;
     cache := None;
     credentials := None |}.

(** X22. The headers of a request are the default [Content-Type] and the own
    properties of the caller's headers, nothing else.  A header of a caller's
    record is sent with the value the record gives it.  A [Headers] instance
    has no own property, so none of its entries is sent; from an array of
    pairs only the indices are own properties, so the names the request
    carries are [Content-Type] and decimal numbers, not the caller's
    names. *)
Theorem only_record_headers_are_forwarded : forall h endpoint options url init,
  In (Fetch url init) (trace (apiRequest h endpoint options)) ->
  (forall k,
     lookup k (init_headers init) =
     match lookup k (rev (caller_headers options)) with
     | Some v => Some v
     | None =>
         if String.eqb "Content-Type" k then Some (VString "application/json") else None
     end) /\
  (forall fields k v,
     headers options = Some (HeadersRecord fields) ->
     lookup k (rev fields) = Some v ->
     lookup k (init_headers init) = Some (VString v)) /\
  (forall entries,
     headers options = Some (HeadersInstance entries) ->
     init_headers init = [("Content-Type", VString "application/json")]) /\
  (forall pairs k,
     headers options = Some (HeadersPairs pairs) ->
     In k (keys (init_headers init)) ->
     k = "Content-Type" \/ exists i, k = Z_toString (Z.of_nat i)).
Proof.
  intros h endpoint options url init Hin.
  destruct (fetch_in_trace _ _ _ _ _ Hin) as [_ Hb].
  pose proof (build_request_headers _ _ _ Hb) as Hh. rewrite Hh.
  split; [| split; [| split]].
  - intros k. rewrite lookup_spread. reflexivity.
  - intros fields k v Hf Hl. rewrite lookup_spread.
    unfold caller_headers. rewrite Hf. cbn [own_enumerable].
    rewrite <- map_rev, lookup_map_VString, Hl. reflexivity.
  - intros entries Hf. unfold caller_headers. rewrite Hf. reflexivity.
  - intros pairs k Hf Hk. apply keys_spread in Hk. destruct Hk as [Hk | Hk].
    + simpl in Hk. destruct Hk as [Hk | []]. left. symmetry. exact Hk.
    + right. unfold caller_headers in Hk. rewrite Hf in Hk. cbn [own_enumerable] in Hk.
      exact (keys_indexed _ _ _ Hk).
Qed.

(** A request with a bearer token. *)
Lemma only_record_headers_are_forwarded_witness :
  exists url init,
    In (Fetch url init)
       (trace (apiRequest (host_answering (inr unauthorized)) "/orders" bearer_options)) /\
    lookup "Authorization" (init_headers init) = Some (VString "Bearer at").
Proof.
  eexists. eexists. split; [left; reflexivity |].
  exact (proj1 (proj2 (only_record_headers_are_forwarded
                         (host_answering (inr unauthorized)) "/orders" bearer_options
                         _ _ (or_introl eq_refl)))
           _ "Authorization" "Bearer at" eq_refl eq_refl).
Defined.

Example headers_instance_is_not_sent :
  trace (apiRequest (host_answering (inr unauthorized)) "/orders"
           {| method := None;
              headers := Some (HeadersInstance [("Authorization", "Bearer at")]);
              body := VUndefined;
              cache := None;
              credentials := None |})
  = [Fetch "http://localhost:8000/api/orders"
       {| init_method := GET;
          init_headers := [("Content-Type", VString "application/json")];
          init_cache := None;
          init_credentials := None;
          init_body := None |}].
Proof. reflexivity. Qed.

(** ** The content type *)

Lemma prefix_iff : forall sub s,
  String.prefix sub s = true <-> exists post, s = sub +++ post.
Proof.
  induction sub as [| c sub IH]; intros s; simpl.
  - split; [intros _; exists s; reflexivity | intros _; destruct s; reflexivity].
  - destruct s as [| c' s]; simpl.
    + split; [discriminate | intros [post H]; discriminate].
    + destruct (Ascii.ascii_dec c c') as [-> | Hn].
      * rewrite IH. split; intros [post H]; exists post.
        -- rewrite H. reflexivity.
        -- inversion H. reflexivity.
      * split; [discriminate |]. intros [post H]. inversion H. congruence.
Qed.

Lemma includes_iff : forall s sub,
  includes s sub = true <-> exists pre post, s = pre +++ sub +++ post.
Proof.
  induction s as [| c s IH]; intros sub; cbn [includes].
  - rewrite orb_false_r, prefix_iff. split.
    + intros [post H]. exists EmptyString, post. exact H.
    + intros (pre & post & H). destruct pre; simpl in H; [| discriminate].
      exists post. exact H.
  - rewrite orb_true_iff, prefix_iff, IH. split.
    + intros [[post H] | (pre & post & H)].
      * exists EmptyString, post. exact H.
      * exists (String c pre), post. rewrite H. reflexivity.
    + intros (pre & post & H). destruct pre as [| c' pre]; simpl in H.
      * left. exists post. exact H.
      * right. inversion H. exists pre, post. reflexivity.
Qed.

(** X23. A response is read as JSON exactly when its content-type header is
    present and contains [application/json] as a substring, in these very
    letters: a charset parameter does not matter, while an absent header,
    another case, or a type such as [application/problem+json] makes the
    wrapper take the text branch. *)
Theorem json_iff_content_type_contains : forall contentType,
  is_json contentType = true <->
  exists pre post, contentType = Some (pre +++ "application/json" +++ post).
Proof.
  intros [ct |]; simpl.
  - rewrite andb_true_iff, includes_iff. split.
    + intros [_ (pre & post & H)]. exists pre, post. rewrite H. reflexivity.
    + intros (pre & post & H). inversion H; subst ct. split.
      * destruct pre; reflexivity.
      * exists pre, post. reflexivity.
  - split; [discriminate | intros (pre & post & H); discriminate].
Qed.

Example content_types :
  is_json (Some "application/json; charset=utf-8") = true /\
  is_json (Some "application/problem+json") = false /\
  is_json (Some "Application/JSON") = false /\
  is_json (Some "text/plain") = false /\
  is_json None = false.
Proof. repeat split. Qed.
